(** * Live camera video pipeline of the Miloco web UI

    A shallow embedding of
    - [web_ui/src/pages/Instant/components/VideoPlayer/index.jsx]
      (bitstream classifier [detectCodec] / [isKeyFrame], the WebSocket
      handlers [onmessage] / [onclose] and the effect cleanup), and
    - the [playStream] handler of the Instant page (the pool of playing
      cameras),
    followed by the properties of the pipeline stated against them. *)

From Stdlib Require Import ZArith List String Bool Lia.
From Stdlib.Strings Require Import Byte.
Import ListNotations.
Open Scope Z_scope.

(* ================================================================== *)
(** ** JavaScript values read from a [Uint8Array]                      *)
(* ================================================================== *)

Module Js.

(** [data[i]] on a typed array is a byte, or [undefined] when [i] is
    not an index of the array; no exception is raised. *)
Definition value := option byte.

Definition u8 (b : byte) : Z := Z.of_N (Byte.to_N b).

(** [v === n] for a number literal [n]. [undefined === n] is false. *)
Definition strict_eq (v : value) (n : Z) : bool :=
  match v with
  | Some b => u8 b =? n
  | None => false
  end.

(** Operand conversion of the bitwise operators: [undefined] becomes 0,
    a byte is its own value. *)
Definition to_int32 (v : value) : Z :=
  match v with
  | Some b => u8 b
  | None => 0
  end.

(** [Array.prototype.includes] on an array literal of numbers. *)
Definition includes (l : list Z) (x : Z) : bool := existsb (Z.eqb x) l.

(** [s.startsWith(p)] *)
Definition startsWith (s p : string) : bool := String.prefix p s.

End Js.

Definition Uint8Array := list byte.

(* ================================================================== *)
(** ** Reads of a buffer, with the indices that were read              *)
(* ================================================================== *)

(** A computation over a buffer returns its value together with the
    list of indices it read, in order. *)
Definition Rd (A : Type) : Type := (A * list nat)%type.

Definition ret {A} (x : A) : Rd A := (x, []).

Definition bind {A B} (m : Rd A) (f : A -> Rd B) : Rd B :=
  (fst (f (fst m)), snd m ++ snd (f (fst m))).

Notation "x <- m ;; k" := (bind m (fun x => k))
  (at level 61, m at next level, right associativity).

(** [data[i]] *)
Definition read (data : Uint8Array) (i : nat) : Rd Js.value :=
  (nth_error data i, [i]).

(** [a && b] and [a || b] evaluate [b] only when needed. *)
Definition andR (a b : Rd bool) : Rd bool :=
  x <- a ;; if x then b else ret false.

Definition orR (a b : Rd bool) : Rd bool :=
  x <- a ;; if x then ret true else b.

(** [data[i] === n] *)
Definition get_eq (data : Uint8Array) (i : nat) (n : Z) : Rd bool :=
  v <- read data i ;; ret (Js.strict_eq v n).

(** The start-code test shared by the three scans:
<<
  data[i] === 0x00 && data[i + 1] === 0x00 &&
  ((data[i + 2] === 0x00 && data[i + 3] === 0x01) || data[i + 2] === 0x01)
>> *)
Definition start_code (data : Uint8Array) (i : nat) : Rd bool :=
  andR (get_eq data i 0)
       (andR (get_eq data (i + 1) 0)
             (orR (andR (get_eq data (i + 2) 0) (get_eq data (i + 3) 1))
                  (get_eq data (i + 2) 1))).

(** [data[i + 2] === 0x01 ? i + 3 : i + 4] *)
Definition nal_start (data : Uint8Array) (i : nat) : Rd nat :=
  c <- get_eq data (i + 2) 1 ;; ret (if c then i + 3 else i + 4)%nat.

(* ================================================================== *)
(** ** Bitstream classifier                                            *)
(* ================================================================== *)

Inductive codec_family := h264 | h265 | unknown.

Definition codec_family_eqb (a b : codec_family) : bool :=
  match a, b with
  | h264, h264 | h265, h265 | unknown, unknown => true
  | _, _ => false
  end.

(** [data[nalStart] & 0x1f] *)
Definition h264_type (v : Js.value) : Z := Z.land (Js.to_int32 v) 31.

(** [(data[nalStart] >> 1) & 0x3f] *)
Definition h265_type (v : Js.value) : Z :=
  Z.land (Z.shiftr (Js.to_int32 v) 1) 63.

(** The loop of [detectCodec], [while (i < data.length - 6) { ... i++ }].
    [None] is returned only when the fuel runs out. *)
Fixpoint detect_loop (fuel : nat) (data : Uint8Array) (i : nat)
  : Rd (option codec_family) :=
  match fuel with
  | O => ret None
  | S fuel' =>
    if Z.of_nat i <? Z.of_nat (List.length data) - 6 then
      sc <- start_code data i ;;
      if sc then
        nalStart <- nal_start data i ;;
        a <- read data nalStart ;;
        b <- read data nalStart ;;
        if Js.includes [5; 7; 8] (h264_type a) then ret (Some h264)
        else if Js.includes [32; 33; 34; 19; 20] (h265_type b)
             then ret (Some h265)
             else detect_loop fuel' data (S i)
      else detect_loop fuel' data (S i)
    else ret (Some unknown)
  end.

Definition detectCodec_rd (data : Uint8Array) : Rd (option codec_family) :=
  detect_loop (S (List.length data)) data 0.

(** The value of [detectCodec(data)]. The fuel above is enough for the
    loop to end ([detectCodec_returns] below), so the last case never
    applies. *)
Definition detectCodec (data : Uint8Array) : codec_family :=
  match fst (detectCodec_rd data) with
  | Some c => c
  | None => unknown
  end.

(** Indices read by [detectCodec]. *)
Definition detectCodec_reads (data : Uint8Array) : list nat :=
  snd (detectCodec_rd data).

(** First branch of [isKeyFrame]: the scan stops at the first start code.
<<
  const nalUnitType = data[i + 2] === 0x01 ? data[i + 3] & 0x1f
                                           : data[i + 4] & 0x1f;
  return nalUnitType === 5;
>> *)
Fixpoint key_h264_loop (fuel : nat) (data : Uint8Array) (i : nat)
  : Rd (option bool) :=
  match fuel with
  | O => ret None
  | S fuel' =>
    if Z.of_nat i <? Z.of_nat (List.length data) - 4 then
      sc <- start_code data i ;;
      if sc then
        c <- get_eq data (i + 2) 1 ;;
        v <- read data (if c then i + 3 else i + 4)%nat ;;
        ret (Some (h264_type v =? 5))
      else key_h264_loop fuel' data (S i)
    else ret (Some false)
  end.

(** Second branch of [isKeyFrame]: the scan goes on until a NAL type in
    [[16, 17, 18, 19, 20]] is found. *)
Fixpoint key_h265_loop (fuel : nat) (data : Uint8Array) (i : nat)
  : Rd (option bool) :=
  match fuel with
  | O => ret None
  | S fuel' =>
    if Z.of_nat i <? Z.of_nat (List.length data) - 6 then
      sc <- start_code data i ;;
      if sc then
        nalStart <- nal_start data i ;;
        v <- read data nalStart ;;
        if Js.includes [16; 17; 18; 19; 20] (h265_type v) then ret (Some true)
        else key_h265_loop fuel' data (S i)
      else key_h265_loop fuel' data (S i)
    else ret (Some false)
  end.

Definition is_h264_codec (codec : string) : bool :=
  Js.startsWith codec "avc1" || Js.startsWith codec "h264".

Definition is_h265_codec (codec : string) : bool :=
  Js.startsWith codec "hvc1" || Js.startsWith codec "hev1"
  || Js.startsWith codec "h265".

Definition isKeyFrame_rd (data : Uint8Array) (codec : string)
  : Rd (option bool) :=
  if is_h264_codec codec then key_h264_loop (S (List.length data)) data 0
  else if is_h265_codec codec then key_h265_loop (S (List.length data)) data 0
  else ret (Some true).

(** The value of [isKeyFrame(data, codec)]; as for [detectCodec] the last
    case never applies ([isKeyFrame_returns]). *)
Definition isKeyFrame (data : Uint8Array) (codec : string) : bool :=
  match fst (isKeyFrame_rd data codec) with
  | Some b => b
  | None => true
  end.

Definition isKeyFrame_reads (data : Uint8Array) (codec : string) : list nat :=
  snd (isKeyFrame_rd data codec).

(* ================================================================== *)
(** ** What a buffer contains                                          *)
(* ================================================================== *)

(** [byte_is data i b]: index [i] is inside the buffer and holds [b]. *)
Definition byte_is (data : Uint8Array) (i : nat) (b : byte) : bool :=
  match nth_error data i with
  | Some x => Byte.eqb x b
  | None => false
  end.

(** A start code [00 00 01] or [00 00 00 01] begins at index [i]. *)
Definition start_code_at (data : Uint8Array) (i : nat) : bool :=
  byte_is data i x00 && byte_is data (i + 1) x00 &&
  (byte_is data (i + 2) x01
   || (byte_is data (i + 2) x00 && byte_is data (i + 3) x01)).

(** The byte that follows the start code beginning at [i]: the NAL header. *)
Definition nal_header (data : Uint8Array) (i : nat) : Js.value :=
  nth_error data (if byte_is data (i + 2) x01 then i + 3 else i + 4)%nat.

Definition is_h264_param_or_idr (v : Js.value) : bool :=
  Js.includes [5; 7; 8] (h264_type v).

Definition is_h265_param_or_idr (v : Js.value) : bool :=
  Js.includes [32; 33; 34; 19; 20] (h265_type v).

Definition is_h265_irap (v : Js.value) : bool :=
  Js.includes [16; 17; 18; 19; 20] (h265_type v).

(** No start code begins anywhere in the buffer. *)
Definition no_start_code (data : Uint8Array) : bool :=
  forallb (fun j => negb (start_code_at data j)) (seq 0 (List.length data)).

(** The first start code of the buffer begins at [i]. *)
Definition first_start_code (data : Uint8Array) (i : nat) : bool :=
  start_code_at data i
  && forallb (fun j => negb (start_code_at data j)) (seq 0 i).

(** The header after the start code at [i] is of a type one of the two
    families lists. *)
Definition classified_at (data : Uint8Array) (i : nat) : bool :=
  start_code_at data i
  && (is_h264_param_or_idr (nal_header data i)
      || is_h265_param_or_idr (nal_header data i)).

(** [i] is the first index visited by the scan of [detectCodec] (the
    indices below [data.length - 6]) at which a start code begins whose
    header is of a listed type. *)
Definition first_classified (data : Uint8Array) (i : nat) : bool :=
  (Z.of_nat i <? Z.of_nat (List.length data) - 6)
  && classified_at data i
  && forallb (fun j => negb (classified_at data j)) (seq 0 i).

(** Some start code of the buffer is followed by an H.265 VPS, SPS, PPS
    or IDR header. *)
Definition contains_h265_param_or_idr (data : Uint8Array) : bool :=
  existsb (fun i => start_code_at data i
                    && is_h265_param_or_idr (nal_header data i))
          (seq 0 (List.length data)).

(** Some start code of the buffer is followed by an H.265 header of type
    16 to 20. *)
Definition contains_h265_irap (data : Uint8Array) : bool :=
  existsb (fun i => start_code_at data i && is_h265_irap (nal_header data i))
          (seq 0 (List.length data)).

(** No start code at an index up to [i] is followed by a header of H.264
    type 5, 7 or 8. *)
Definition no_h264_match_upto (data : Uint8Array) (i : nat) : bool :=
  forallb (fun j => negb (start_code_at data j
                          && is_h264_param_or_idr (nal_header data j)))
          (seq 0 (S i)).

(** What the two scanning branches of [isKeyFrame] decide, said over the
    indices each one visits: the H.264 branch looks at the first start
    code below [data.length - 4] only, the H.265 branch at every start
    code below [data.length - 6]. *)
Definition key_h264_spec (data : Uint8Array) : bool :=
  match find (start_code_at data)
             (seq 0 (Z.to_nat (Z.of_nat (List.length data) - 4))) with
  | Some i => h264_type (nal_header data i) =? 5
  | None => false
  end.

Definition key_h265_spec (data : Uint8Array) : bool :=
  existsb (fun i => start_code_at data i && is_h265_irap (nal_header data i))
          (seq 0 (Z.to_nat (Z.of_nat (List.length data) - 6))).

(* ================================================================== *)
(** ** The VideoPlayer component: handlers of one session             *)
(* ================================================================== *)

Inductive frame_kind := key | delta.

(** [new EncodedVideoChunk({ type, timestamp, data })] *)
Record EncodedVideoChunk := {
  chunk_type : frame_kind;
  chunk_timestamp : Z;
  chunk_data : Uint8Array
}.

(** [e.data] of a message: only an [ArrayBuffer] is handled. *)
Inductive ws_data :=
| ArrayBuffer (bytes : Uint8Array)
| TextFrame (s : string).

(** A message event, with the value [performance.now()] has when the
    handler runs. *)
Record MessageEvent := {
  msg_data : ws_data;
  msg_now : Z
}.

(** A close event; [event.reason] may be absent. *)
Record CloseEvent := {
  close_reason : option string
}.

Record WebSocket := {
  ws_url : string
}.

(** What a handler does to the outside, in order: the calls it makes to
    the classifier, to the state setters, to the decoder, to the transport
    and to the [onPlay] prop; [Uncaught] is an exception that leaves the
    handler. Console output is left out. *)
Inductive effect :=
| CallDetectCodec (data : Uint8Array)
| CallIsKeyFrame (data : Uint8Array) (codec : string)
| SetAutoCodec (c : string)
| SetError (key : string)
| Decode (c : EncodedVideoChunk)
| DecoderClose
| WsClose (code : option Z) (reason : option string)
| OnPlay
| Uncaught (name : string).

(** Truthiness of a value that is [null] or a string. *)
Definition truthy (v : option string) : bool :=
  match v with
  | None => false
  | Some EmptyString => false
  | Some _ => true
  end.

(** [a || b] for such a value [a] and a string [b]. *)
Definition or_else (a : option string) (b : string) : string :=
  match a with
  | Some s => if truthy a then s else b
  | None => b
  end.

(** What the callbacks created by one run of the effect see of the props
    and of the state: the values of the render that ran the effect. The
    effect runs again only when [codec], [isSupported], [cameraId] or
    [channel] changes (its dependency array), so a later [setAutoCodec] or
    [setError] does not change what the handlers of a running session
    read. *)
Record closure := {
  codec : string;
  autoCodec : option string;
  error : option string;
  onPlay : bool          (* whether the [onPlay] prop was given *)
}.

Section VideoPlayer.

(** The platform decoder: its internal state, the state of a decoder
    just created and configured for a codec string, and [decode(chunk)],
    which returns the next internal state and whether the call threw. *)
Variable D : Type.
Variable configure : string -> D.
Variable decode : D -> EncodedVideoChunk -> D * bool.

(** The object in [decoderRef.current], with the property the message
    handler adds to it. *)
Record VideoDecoder := {
  dec_internal : D;
  _waitForKeyFrame : option bool
}.

(** The refs and the live state of the component. *)
Record component := {
  wsRef : option WebSocket;
  decoderRef : option VideoDecoder;
  state_autoCodec : option string;
  state_error : option string
}.

Definition set_decoderRef (st : component) (d : option VideoDecoder) :=
  {| wsRef := wsRef st; decoderRef := d;
     state_autoCodec := state_autoCodec st; state_error := state_error st |}.

Definition set_wsRef (st : component) (w : option WebSocket) :=
  {| wsRef := w; decoderRef := decoderRef st;
     state_autoCodec := state_autoCodec st; state_error := state_error st |}.

Definition setAutoCodec (st : component) (c : string) :=
  {| wsRef := wsRef st; decoderRef := decoderRef st;
     state_autoCodec := Some c; state_error := state_error st |}.

Definition setError (st : component) (e : option string) :=
  {| wsRef := wsRef st; decoderRef := decoderRef st;
     state_autoCodec := state_autoCodec st; state_error := e |}.

Definition set_wait (d : VideoDecoder) (w : bool) :=
  {| dec_internal := dec_internal d; _waitForKeyFrame := Some w |}.

Definition set_internal (d : VideoDecoder) (x : D) :=
  {| dec_internal := x; _waitForKeyFrame := _waitForKeyFrame d |}.

(** The gate is closed: the flag is not there yet, or it is true. *)
Definition gate_closed (d : VideoDecoder) : bool :=
  match _waitForKeyFrame d with
  | Some false => false
  | _ => true
  end.

(** [if (decoderRef.current._waitForKeyFrame)] *)
Definition waiting (d : VideoDecoder) : bool :=
  match _waitForKeyFrame d with
  | Some true => true
  | _ => false
  end.

(** The first statement of [onmessage]:
<<
if (!autoCodec) {
  const detected = detectCodec(uint8);
  if (detected !== 'unknown') {
    setAutoCodec(detected === 'h264' ? 'avc1.42E01E' : 'hvc1.1.6.L93.B0');
  }
}
>> *)
Definition detect_stage (cl : closure) (st : component) (uint8 : Uint8Array)
  : component * list effect :=
  if negb (truthy (autoCodec cl)) then
    let detected := detectCodec uint8 in
    if negb (codec_family_eqb detected unknown) then
      let c := if codec_family_eqb detected h264
               then "avc1.42E01E"%string else "hvc1.1.6.L93.B0"%string in
      (setAutoCodec st c, [CallDetectCodec uint8; SetAutoCodec c])
    else (st, [CallDetectCodec uint8])
  else (st, []).

(** [wsRef.current.onmessage] *)
Definition onmessage (cl : closure) (st : component) (e : MessageEvent)
  : component * list effect :=
  match msg_data e with
  | TextFrame _ => (st, [])
  | ArrayBuffer uint8 =>
    let st1 := fst (detect_stage cl st uint8) in
    let eff1 := snd (detect_stage cl st uint8) in
    let useCodec := or_else (autoCodec cl) (codec cl) in
    match decoderRef st1 with
    | None => (st1, eff1 ++ [Uncaught "TypeError"])
    | Some dec =>
      let dec1 := match _waitForKeyFrame dec with
                  | None => set_wait dec true
                  | Some _ => dec
                  end in
      let isKey := isKeyFrame uint8 useCodec in
      let eff2 := eff1 ++ [CallIsKeyFrame uint8 useCodec] in
      if waiting dec1 && negb isKey then
        (set_decoderRef st1 (Some dec1), eff2)
      else
        let dec2 := if waiting dec1 then set_wait dec1 false else dec1 in
        let chunk := {| chunk_type := if isKey then key else delta;
                        chunk_timestamp := msg_now e;
                        chunk_data := uint8 |} in
        let dec3 := set_internal dec2 (fst (decode (dec_internal dec2) chunk)) in
        if snd (decode (dec_internal dec2) chunk) then
          (setError (set_decoderRef st1 (Some dec3))
                    (Some "instant.deviceList.deviceDecodeFailed"%string),
           eff2 ++ [Decode chunk;
                    SetError "instant.deviceList.deviceDecodeFailed"])
        else
          (set_decoderRef st1 (Some dec3), eff2 ++ [Decode chunk])
    end
  end.

(** [wsRef.current.onclose]:
<<
if (!error) { setError(t('instant.deviceList.deviceConnectClosed')) }
const { reason = '' } = event;
if (reason !== 'close_by_user') { onPlay && onPlay() }
>> *)
Definition reason_of (event : CloseEvent) : string :=
  match close_reason event with
  | Some r => r
  | None => EmptyString
  end.

Definition onclose (cl : closure) (st : component) (event : CloseEvent)
  : component * list effect :=
  let st1 := if negb (truthy (error cl))
             then setError st (Some "instant.deviceList.deviceConnectClosed"%string)
             else st in
  let eff1 := if negb (truthy (error cl))
              then [SetError "instant.deviceList.deviceConnectClosed"]
              else [] in
  let reason := reason_of event in
  if negb (String.eqb reason "close_by_user") then
    (st1, eff1 ++ (if onPlay cl then [OnPlay] else []))
  else (st1, eff1).

(** The function returned by the effect (its cleanup): both handles are
    closed and cleared; an exception of either [close] is caught. *)
Definition cleanup (st : component) : component * list effect :=
  let st1 := match wsRef st with
             | Some _ => set_wsRef st None
             | None => st
             end in
  let eff1 := match wsRef st with
              | Some _ => [WsClose (Some 1000) (Some "close_by_user"%string)]
              | None => []
              end in
  let st2 := match decoderRef st1 with
             | Some _ => set_decoderRef st1 None
             | None => st1
             end in
  let eff2 := match decoderRef st1 with
              | Some _ => [DecoderClose]
              | None => []
              end in
  (st2, eff1 ++ eff2).

(** The component once [init] has opened the transport and created and
    configured the decoder ([setError(null)], a new [WebSocket], a new
    [VideoDecoder] configured with the [codec] prop). *)
Definition session_start (cl : closure) (url : string)
           (state_autoCodec0 : option string) : component :=
  {| wsRef := Some {| ws_url := url |};
     decoderRef := Some {| dec_internal := configure (codec cl);
                           _waitForKeyFrame := None |};
     state_autoCodec := state_autoCodec0;
     state_error := None |}.

(** The messages of one session, handled in arrival order by the handler
    the effect installed. *)
Fixpoint session_run (cl : closure) (st : component) (evs : list MessageEvent)
  : component * list effect :=
  match evs with
  | [] => (st, [])
  | e :: rest =>
    (fst (session_run cl (fst (onmessage cl st e)) rest),
     snd (onmessage cl st e)
     ++ snd (session_run cl (fst (onmessage cl st e)) rest))
  end.

(** The chunks submitted to the decoder, and the other kinds of effect,
    in a list of effects. *)
Definition decoded (effs : list effect) : list EncodedVideoChunk :=
  flat_map (fun x => match x with Decode c => [c] | _ => [] end) effs.

Definition errors_set (effs : list effect) : list string :=
  flat_map (fun x => match x with SetError k => [k] | _ => [] end) effs.

Definition detect_calls (effs : list effect) : list Uint8Array :=
  flat_map (fun x => match x with CallDetectCodec d => [d] | _ => [] end) effs.

Definition key_calls (effs : list effect) : list (Uint8Array * string) :=
  flat_map (fun x => match x with
                     | CallIsKeyFrame d c => [(d, c)]
                     | _ => []
                     end) effs.

Definition closes (effs : list effect) : bool :=
  existsb (fun x => match x with
                    | DecoderClose | WsClose _ _ => true
                    | _ => false
                    end) effs.

Definition uncaught (effs : list effect) : bool :=
  existsb (fun x => match x with Uncaught _ => true | _ => false end) effs.

Definition calls_onPlay (effs : list effect) : bool :=
  existsb (fun x => match x with OnPlay => true | _ => false end) effs.

End VideoPlayer.

Arguments dec_internal {D} v.
Arguments _waitForKeyFrame {D} v.
Arguments wsRef {D} c.
Arguments decoderRef {D} c.
Arguments state_autoCodec {D} c.
Arguments state_error {D} c.
Arguments gate_closed {D} d.
Arguments waiting {D} d.
Arguments onmessage {D} decode cl st e.
Arguments onclose {D} cl st event.
Arguments cleanup {D} st.
Arguments session_run {D} decode cl st evs.
Arguments session_start {D} configure cl url state_autoCodec0.
Arguments detect_stage {D} cl st uint8.

(** An access unit as it arrives: its bytes and the clock reading at the
    time it is handled. *)
Definition access_unit : Type := (Uint8Array * Z)%type.

Definition unit_event (u : access_unit) : MessageEvent :=
  {| msg_data := ArrayBuffer (fst u); msg_now := snd u |}.

(** The codec string a session classifies its units with, and the kind
    it gives to a unit. *)
Definition useCodec (cl : closure) : string :=
  or_else (autoCodec cl) (codec cl).

Definition classify (cl : closure) (u : access_unit) : frame_kind :=
  if isKeyFrame (fst u) (useCodec cl) then key else delta.

Definition unit_chunk (cl : closure) (u : access_unit) : EncodedVideoChunk :=
  {| chunk_type := classify cl u;
     chunk_timestamp := snd u;
     chunk_data := fst u |}.

(** The units from the first one classified as key on. *)
Fixpoint from_first_key (cl : closure) (units : list access_unit)
  : list access_unit :=
  match units with
  | [] => []
  | u :: rest =>
    match classify cl u with
    | key => u :: rest
    | delta => from_first_key cl rest
    end
  end.

(** A decoder to run the handlers on: it counts the chunks it accepted
    and throws on a chunk of less than 8 bytes. *)
Definition sample_configure (_ : string) : nat := 0%nat.

Definition sample_decode (n : nat) (c : EncodedVideoChunk) : nat * bool :=
  if (List.length (chunk_data c) <? 8)%nat then (n, true) else (S n, false).

(** The session of a player that was given no [codec] prop (the default
    applies) and has detected nothing yet. *)
Definition default_closure : closure :=
  {| codec := "avc1.42E01E"; autoCodec := None; error := None; onPlay := true |}.

(** The close event the handler receives: its reason is the one of the
    closing handshake, which a close started by this side sets and the
    peer echoes, and which the peer sets when it closes first. *)
Inductive close_cause :=
| ClosedLocally (code : option Z) (reason : option string)
| ClosedByPeer (reason : option string).

Definition close_event (c : close_cause) : CloseEvent :=
  match c with
  | ClosedLocally _ r => {| close_reason := r |}
  | ClosedByPeer r => {| close_reason := r |}
  end.

(** The closes of the transport that a list of effects starts. *)
Definition local_closes (effs : list effect) : list close_cause :=
  flat_map (fun x => match x with
                     | WsClose c r => [ClosedLocally c r]
                     | _ => []
                     end) effs.

(* ================================================================== *)
(** ** The Instant page: the cameras being played                      *)
(* ================================================================== *)

Module Instant.

Record camera := {
  did : string
}.

Definition includes (l : list string) (x : string) : bool :=
  existsb (String.eqb x) l.

(** [playStream(item)]: the values passed to [setCurrentPlayingId], in
    the order of the calls. [currentPlayingId] is the state of the
    render that created the handler, and stays so during the call. *)
Definition playStream (currentPlayingId : list string)
           (item : option camera) : list (list string) :=
  match item with
  | None => []
  | Some item =>
    if includes currentPlayingId (did item) then
      [filter (fun id => negb (String.eqb id (did item))) currentPlayingId]
    else
      (if (4 <=? List.length currentPlayingId)%nat
       then [skipn 1 currentPlayingId]
       else [])
      ++ [currentPlayingId ++ [did item]]
  end.

(** A state setter called with a value replaces the state; after the
    handler the state is the value of the last call, or the old state
    when there was no call. *)
Definition commit (state : list string) (calls : list (list string))
  : list string :=
  last calls state.

(** The state after one click. *)
Definition activate (currentPlayingId : list string) (item : option camera)
  : list string :=
  commit currentPlayingId (playStream currentPlayingId item).

End Instant.

(* ================================================================== *)
(** ** More on what the classifier decides                             *)
(* ================================================================== *)

(** What [detectCodec] decides, said over the indices its scan visits:
    the first start code below [data.length - 6] whose header is of a
    listed type gives the answer, the H.264 reading first. *)
Definition detect_spec (data : Uint8Array) : codec_family :=
  match find (classified_at data)
             (seq 0 (Z.to_nat (Z.of_nat (List.length data) - 6))) with
  | Some i => if is_h264_param_or_idr (nal_header data i) then h264 else h265
  | None => unknown
  end.

(* ================================================================== *)
(** ** More on a session                                               *)
(* ================================================================== *)

(** [e.data instanceof ArrayBuffer] *)
Definition is_binary (e : MessageEvent) : bool :=
  match msg_data e with
  | ArrayBuffer _ => true
  | TextFrame _ => false
  end.

(** The codec string [setAutoCodec] is called with for a detected family;
    none for ['unknown']. *)
Definition profile_of (c : codec_family) : option string :=
  match c with
  | h264 => Some "avc1.42E01E"%string
  | h265 => Some "hvc1.1.6.L93.B0"%string
  | unknown => None
  end.

(** The profile of the last unit of the list that was detected as
    something, or [init] when none was. *)
Definition last_detected (init : option string) (units : list access_unit)
  : option string :=
  fold_left (fun acc u => match profile_of (detectCodec (fst u)) with
                          | Some p => Some p
                          | None => acc
                          end) units init.

(** The number of calls to [close] on the decoder in a list of effects. *)
Definition count_occ_decoder_close (effs : list effect) : nat :=
  List.length (filter (fun x => match x with DecoderClose => true | _ => false end)
                      effs).

(* ================================================================== *)
(** ** The rest of the effect of the VideoPlayer component             *)
(* ================================================================== *)

(** What the other callbacks of the effect do to the outside: the effects
    above, the error toast, the other state setters, the pause before the
    transport is opened, the two constructors, and the drawing of a
    frame. *)
Inductive action :=
| Eff (e : effect)
| MessageError (key : string)
| SetErrorNull
| SetLoading (b : bool)
| SetShow (b : bool)
| Sleep (ms : Z)
| NewWebSocket (url : string)
| NewVideoDecoder (codec : string) (hardwareAcceleration : string)
| OnCanvasRef
| CanvasSize (width height : Z)
| DrawImage (frame : nat)
| FrameClose (frame : nat)
| BitmapClose (frame : nat).

(** What [init] reads besides the closure: the other props and the
    support state of the render, the browser and the page address. *)
Record environment := {
  cameraId : option string;
  channel : string;                (* the [channel] prop, as text *)
  isSupported : option bool;       (* [null] before the detection *)
  isFirefox : bool;
  location_protocol : string;
  location_host : string;
  VITE_API_BASE : option string
}.

Section Effect.

Variable D : Type.
Variable configure : string -> D.
Variable encodeURIComponent : string -> string.

(** The address of the stream:
<<
const wsProtocol = window.location.protocol === 'https:' ? 'wss' : 'ws';
const wsUrl = `${wsProtocol}://${window.location.host}${import.meta.env.VITE_API_BASE || ''}/api/miot/ws/video_stream?camera_id=${encodeURIComponent(cameraId)}&channel=${encodeURIComponent(channel)}`
>> *)
Definition wsUrl (env : environment) : string :=
  String.concat EmptyString
    [ if String.eqb (location_protocol env) "https:" then "wss" else "ws";
      "://"; location_host env;
      or_else (VITE_API_BASE env) EmptyString;
      "/api/miot/ws/video_stream?camera_id=";
      encodeURIComponent (match cameraId env with
                          | Some c => c
                          | None => "undefined"
                          end);
      "&channel="; encodeURIComponent (channel env) ]%string.

(** [init], up to its [await sleep(1000)]. The boolean tells whether the
    function goes on after the pause; it is false when [init] returned. *)
Definition init_before_sleep (env : environment) (cl : closure)
           (st : component D) : component D * list action * bool :=
  if negb (truthy (cameraId env))
     || match isSupported env with None => true | Some _ => false end
  then (st, [], false)
  else if isFirefox env then
    (setError D st (Some "instant.deviceList.browserNotSupport"%string),
     [Eff (SetError "instant.deviceList.browserNotSupport");
      MessageError "instant.deviceList.browserNotSupport"]
     ++ (if onPlay cl then [Eff OnPlay] else []),
     false)
  else if negb (match isSupported env with Some b => b | None => false end) then
    (setError D st (Some "instant.deviceList.deviceNotSupport"%string),
     [Eff (SetError "instant.deviceList.deviceNotSupport");
      MessageError "instant.deviceList.deviceNotSupport"]
     ++ (if onPlay cl then [Eff OnPlay] else []),
     false)
  else
    let st1 := match wsRef st with
               | Some _ => set_wsRef D st None
               | None => st
               end in
    let act1 := match wsRef st with
                | Some _ => [Eff (WsClose None None)]
                | None => []
                end in
    let st2 := match decoderRef st1 with
               | Some _ => set_decoderRef D st1 None
               | None => st1
               end in
    let act2 := match decoderRef st1 with
                | Some _ => [Eff DecoderClose]
                | None => []
                end in
    (setError D st2 None,
     act1 ++ act2 ++ [SetLoading true; SetErrorNull; SetShow false; Sleep 1000],
     true).

(** [init], after the pause: the transport and the decoder are created
    and stored in the refs, whatever the refs hold. *)
Definition init_after_sleep (env : environment) (cl : closure)
           (st : component D) : component D * list action :=
  (set_decoderRef D
     (set_wsRef D st (Some {| ws_url := wsUrl env |}))
     (Some {| dec_internal := configure (codec cl);
              _waitForKeyFrame := None |}),
   [NewWebSocket (wsUrl env); NewVideoDecoder (codec cl) "prefer-hardware"]).

(** [wsRef.current.onerror]:
<<
setError(t('instant.deviceList.deviceConnectFailed'))
message.error(t('instant.deviceList.deviceConnectFailed'))
wsRef.current && wsRef.current?.close?.()
onPlay && onPlay()
>> *)
Definition onerror (cl : closure) (st : component D)
  : component D * list action :=
  (setError D st (Some "instant.deviceList.deviceConnectFailed"%string),
   [Eff (SetError "instant.deviceList.deviceConnectFailed");
    MessageError "instant.deviceList.deviceConnectFailed"]
   ++ match wsRef st with
      | Some _ => [Eff (WsClose None None)]
      | None => []
      end
   ++ (if onPlay cl then [Eff OnPlay] else [])).

End Effect.

Arguments init_before_sleep {D} env cl st.
Arguments init_after_sleep {D} configure encodeURIComponent env cl st.
Arguments onerror {D} cl st.

(** The three conditions under which [init] goes on to the pause: there
    is a camera, support was detected and is given, and the browser is
    not Firefox. *)
Definition init_goes_on (env : environment) : bool :=
  truthy (cameraId env)
  && match isSupported env with Some b => b | None => false end
  && negb (isFirefox env).

(** The calls to [onPlay], to [close] on the transport and to the two
    constructors, in a list of actions. *)
Definition effects_of (acts : list action) : list effect :=
  flat_map (fun a => match a with Eff e => [e] | _ => [] end) acts.

Definition count_onPlay (effs : list effect) : nat :=
  List.length (filter (fun x => match x with OnPlay => true | _ => false end)
                      effs).

Definition opened (acts : list action) : list string :=
  flat_map (fun a => match a with NewWebSocket u => [u] | _ => [] end) acts.

Definition decoders_made (acts : list action) : list string :=
  flat_map (fun a => match a with NewVideoDecoder c _ => [c] | _ => [] end) acts.

(* ================================================================== *)
(** ** Drawing the decoded frames                                      *)
(* ================================================================== *)

Record VideoFrame := {
  frame_id : nat;
  codedWidth : Z;
  codedHeight : Z
}.

(** The canvas, the [ready] variable of [init] and the two states the
    output callback sets. *)
Record sink := {
  ready : bool;
  canvas_size : option (Z * Z);
  loading : bool;
  show : bool
}.

(** As [init] leaves them before the pause: [setLoading(true)],
    [setShow(false)], [let ready = false]. *)
Definition sink_start : sink :=
  {| ready := false; canvas_size := None; loading := true; show := false |}.

(** The callback given to [createImageBitmap(frame).then]:
<<
canvas.width = frame.codedWidth
canvas.height = frame.codedHeight
ctx.drawImage(bitmap, 0, 0)
frame.close()
bitmap.close && bitmap.close()
if (!ready) {
  setLoading(false)
  setShow(true)
  if (onCanvasRef && canvasRef.current) { onCanvasRef(canvasRef) }
  ready = true
}
>> *)
Definition on_bitmap (has_onCanvasRef : bool) (s : sink) (f : VideoFrame)
  : sink * list action :=
  let drawn := [CanvasSize (codedWidth f) (codedHeight f);
                DrawImage (frame_id f);
                FrameClose (frame_id f);
                BitmapClose (frame_id f)] in
  if negb (ready s) then
    ({| ready := true;
        canvas_size := Some (codedWidth f, codedHeight f);
        loading := false;
        show := true |},
     drawn ++ [SetLoading false; SetShow true]
     ++ (if has_onCanvasRef then [OnCanvasRef] else []))
  else
    ({| ready := ready s;
        canvas_size := Some (codedWidth f, codedHeight f);
        loading := loading s;
        show := show s |},
     drawn).

(** The bitmaps of the frames, in the order they become available. *)
Fixpoint sink_run (has_onCanvasRef : bool) (s : sink) (frames : list VideoFrame)
  : sink * list action :=
  match frames with
  | [] => (s, [])
  | f :: rest =>
    (fst (sink_run has_onCanvasRef (fst (on_bitmap has_onCanvasRef s f)) rest),
     snd (on_bitmap has_onCanvasRef s f)
     ++ snd (sink_run has_onCanvasRef (fst (on_bitmap has_onCanvasRef s f)) rest))
  end.

(** What the component renders of these states: the loading layer when
    [loading], the poster when [!show && poster], the canvas with opacity
    1 when [show] and 0 otherwise. *)
Record rendered := {
  loading_layer : bool;
  poster_image : bool;
  canvas_opacity : Z
}.

Definition render (poster : option string) (s : sink) : rendered :=
  {| loading_layer := loading s;
     poster_image := negb (show s) && truthy poster;
     canvas_opacity := if show s then 1 else 0 |}.

Definition frames_closed (acts : list action) : list nat :=
  flat_map (fun a => match a with FrameClose i => [i] | _ => [] end) acts.

Definition frames_drawn (acts : list action) : list nat :=
  flat_map (fun a => match a with DrawImage i => [i] | _ => [] end) acts.

Definition shows (acts : list action) : list bool :=
  flat_map (fun a => match a with SetShow b => [b] | _ => [] end) acts.

Definition loadings (acts : list action) : list bool :=
  flat_map (fun a => match a with SetLoading b => [b] | _ => [] end) acts.

(* ================================================================== *)
(** ** The request helper: [callapi] and the two response interceptors *)
(* ================================================================== *)

Module Api.

(** A value a response body, or one of its fields, can be. Numbers are
    integers here; an array counts as an object. *)
#[warnings="-register-all"]
Inductive jsval :=
| JUndefined
| JNull
| JBool (b : bool)
| JNum (n : Z)
| JStr (s : string)
| JObj (fields : list (string * jsval)).

Definition truthy (v : jsval) : bool :=
  match v with
  | JUndefined | JNull => false
  | JBool b => b
  | JNum n => negb (n =? 0)
  | JStr s => negb (String.eqb s EmptyString)
  | JObj _ => true
  end.

Fixpoint lookup (key : string) (fields : list (string * jsval)) : jsval :=
  match fields with
  | [] => JUndefined
  | (k, v) :: rest => if String.eqb k key then v else lookup key rest
  end.

(** [v.message]: a TypeError ([None]) on [null] and [undefined], the
    field of an object, [undefined] on the other values. *)
Definition message_of (v : jsval) : option jsval :=
  match v with
  | JUndefined | JNull => None
  | JObj fields => Some (lookup "message" fields)
  | _ => Some JUndefined
  end.

(** [v?.message] *)
Definition message_opt (v : jsval) : jsval :=
  match message_of v with
  | Some m => m
  | None => JUndefined
  end.

Record response := {
  status : Z;
  data : jsval
}.

Inductive outcome :=
| Returns (v : jsval)
| Throws (name : string).

(** What an interceptor does: its outcome, the values it passes to
    [message.error], the addresses it assigns to [window.location.href]. *)
Record handled := {
  result : outcome;
  toasts : list jsval;
  redirects : list string
}.

(** The first function given to [interceptors.response.use]:
<<
if (response.status === 200 && response.data) { return response.data }
else {
  if (response.data.message) { message.error(response.data.message) }
  return null
}
>> *)
Definition on_response (r : response) : handled :=
  if (status r =? 200) && truthy (data r) then
    {| result := Returns (data r); toasts := []; redirects := [] |}
  else
    match message_of (data r) with
    | None => {| result := Throws "TypeError"; toasts := []; redirects := [] |}
    | Some m =>
      {| result := Returns JNull;
         toasts := if truthy m then [m] else [];
         redirects := [] |}
    end.

(** The page address the second function reads. *)
Record location := {
  origin : option string;
  pathname : string
}.

(** The second function given to [interceptors.response.use]; [err] is
    given by its [response], absent when the request got none:
<<
if (err?.response?.data?.message) { message.error(err?.response?.data?.message) }
const origin = window.location && window.location.origin
  ? window.location.origin : '';
if (err?.response?.status === 401) {
  const { pathname } = window.location
  if (pathname !== "/login") { window.location.href = `${origin}/login`; }
}
if (err?.response?.status === 500) { window.location.href = `${origin}/500`; }
return null
>> *)
Definition on_error (err : option response) (loc : location) : handled :=
  let msg := match err with
             | Some r => message_opt (data r)
             | None => JUndefined
             end in
  let o := or_else (origin loc) EmptyString in
  let is_status (n : Z) := match err with
                           | Some r => status r =? n
                           | None => false
                           end in
  {| result := Returns JNull;
     toasts := if truthy msg then [msg] else [];
     redirects :=
       (if is_status 401 then
          if negb (String.eqb (pathname loc) "/login")
          then [String.append o "/login"] else []
        else [])
       ++ (if is_status 500 then [String.append o "/500"] else []) |}.

Section Call.

(** The payload of a request and the empty object. *)
Variable Payload : Type.
Variable empty_object : Payload.

(** The object given to the axios instance; [cfg_timeout] is absent
    unless a timeout was given. *)
Record config := {
  cfg_method : string;
  cfg_url : string;
  cfg_params : Payload;
  cfg_data : Payload;
  cfg_timeout : option Z
}.

(** [callapi(method = "GET", url, data = {}, timeout = null)]; an absent
    argument is [None]. *)
Definition callapi (method : option string) (url : string)
           (data : option Payload) (timeout : option Z) : config :=
  let method := match method with Some m => m | None => "GET"%string end in
  let data := match data with Some d => d | None => empty_object end in
  {| cfg_method := method;
     cfg_url := url;
     cfg_params := if String.eqb method "GET" then data else empty_object;
     cfg_data := if String.eqb method "POST" || String.eqb method "PUT"
                 then data else empty_object;
     cfg_timeout := timeout |}.

Definition getApi url data timeout := callapi (Some "GET"%string) url data timeout.
Definition postApi url data timeout := callapi (Some "POST"%string) url data timeout.
Definition putApi url data timeout := callapi (Some "PUT"%string) url data timeout.
Definition deleteApi url timeout :=
  callapi (Some "DELETE"%string) url (Some empty_object) timeout.

End Call.

End Api.

(** A page and a camera to run [init] on. *)
Definition sample_env : environment :=
  {| cameraId := Some "cam1"%string;
     channel := "0";
     isSupported := Some true;
     isFirefox := false;
     location_protocol := "https:";
     location_host := "miloco.local";
     VITE_API_BASE := None |}.

(** A session that has started, on the decoder of the examples. *)
Definition sample_session : component nat :=
  session_start sample_configure default_closure
                "wss://miloco.local/api/miot/ws/video_stream?camera_id=cam1&channel=0"
                None.
(* ================================================================== *)
(** ** The monadic code against its value and its reads                *)
(* ================================================================== *)

Lemma u8_inj (x y : byte) : Js.u8 x = Js.u8 y -> x = y.
Proof.
  unfold Js.u8. intros H. apply N2Z.inj in H.
  assert (E : Byte.of_N (Byte.to_N x) = Byte.of_N (Byte.to_N y))
    by now rewrite H.
  rewrite !Byte.of_to_N in E. now inversion E.
Qed.

Lemma strict_eq_byte (x : byte) (b : byte) :
  Js.strict_eq (Some x) (Js.u8 b) = Byte.eqb x b.
Proof.
  unfold Js.strict_eq.
  destruct (Byte.eqb x b) eqn:E.
  - apply Byte.byte_dec_bl in E. subst. apply Z.eqb_refl.
  - apply Byte.eqb_false in E. apply Z.eqb_neq.
    intro H. apply E. now apply u8_inj.
Qed.

Lemma get_eq_fst data i (b : byte) :
  fst (get_eq data i (Js.u8 b)) = byte_is data i b.
Proof.
  unfold get_eq, read, bind, byte_is; simpl.
  destruct (nth_error data i) as [x |]; [apply strict_eq_byte | reflexivity].
Qed.

Lemma get_eq_snd data i n : snd (get_eq data i n) = [i].
Proof. reflexivity. Qed.

Lemma andR_fst (a b : Rd bool) : fst (andR a b) = fst a && fst b.
Proof. unfold andR, bind; simpl. now destruct (fst a). Qed.

Lemma orR_fst (a b : Rd bool) : fst (orR a b) = fst a || fst b.
Proof. unfold orR, bind; simpl. now destruct (fst a). Qed.

Lemma get_eq_0 data i : fst (get_eq data i 0) = byte_is data i x00.
Proof. exact (get_eq_fst data i x00). Qed.

Lemma get_eq_1 data i : fst (get_eq data i 1) = byte_is data i x01.
Proof. exact (get_eq_fst data i x01). Qed.

Lemma start_code_fst data i :
  fst (start_code data i) = start_code_at data i.
Proof.
  unfold start_code, start_code_at.
  rewrite !andR_fst, orR_fst, andR_fst, !get_eq_0, !get_eq_1.
  destruct (byte_is data i x00), (byte_is data (i + 1) x00),
    (byte_is data (i + 2) x00), (byte_is data (i + 2) x01),
    (byte_is data (i + 3) x01); reflexivity.
Qed.

Lemma start_code_snd data i j :
  In j (snd (start_code data i)) -> (j <= i + 3)%nat.
Proof.
  unfold start_code, andR, orR, bind. simpl.
  repeat match goal with
         | |- context [if ?c then _ else _] => destruct c; simpl
         end;
    intros H; repeat (destruct H as [H | H]; [lia |]); contradiction.
Qed.

Lemma nal_start_fst data i :
  fst (nal_start data i)
  = (if byte_is data (i + 2) x01 then i + 3 else i + 4)%nat.
Proof.
  unfold nal_start, bind. cbn [fst ret]. now rewrite get_eq_1.
Qed.

Lemma nal_start_snd data i : snd (nal_start data i) = [(i + 2)%nat].
Proof. reflexivity. Qed.

Lemma nal_start_le data i : (fst (nal_start data i) <= i + 4)%nat.
Proof. rewrite nal_start_fst. destruct (byte_is data (i + 2) x01); lia. Qed.

Lemma bind_fst {A B} (m : Rd A) (k : A -> Rd B) :
  fst (bind m k) = fst (k (fst m)).
Proof. reflexivity. Qed.

Lemma bind_reads {A B} (m : Rd A) (k : A -> Rd B) j :
  In j (snd (bind m k)) -> In j (snd m) \/ In j (snd (k (fst m))).
Proof. unfold bind; simpl. apply in_app_or. Qed.

Lemma read_fst data i : fst (read data i) = nth_error data i.
Proof. reflexivity. Qed.

(** One unfolding of each loop, on values. *)
Lemma detect_loop_fst f data i :
  fst (detect_loop (S f) data i) =
  if Z.of_nat i <? Z.of_nat (List.length data) - 6 then
    if start_code_at data i then
      if is_h264_param_or_idr (nal_header data i) then Some h264
      else if is_h265_param_or_idr (nal_header data i) then Some h265
           else fst (detect_loop f data (S i))
    else fst (detect_loop f data (S i))
  else Some unknown.
Proof.
  cbn [detect_loop].
  destruct (Z.of_nat i <? Z.of_nat (List.length data) - 6); [| reflexivity].
  rewrite bind_fst, start_code_fst.
  destruct (start_code_at data i); [| reflexivity].
  rewrite !bind_fst, nal_start_fst, read_fst.
  unfold is_h264_param_or_idr, is_h265_param_or_idr, nal_header.
  destruct (Js.includes [5; 7; 8] _); [reflexivity |].
  destruct (Js.includes [32; 33; 34; 19; 20] _); reflexivity.
Qed.

Lemma key_h264_loop_fst f data i :
  fst (key_h264_loop (S f) data i) =
  if Z.of_nat i <? Z.of_nat (List.length data) - 4 then
    if start_code_at data i then Some (h264_type (nal_header data i) =? 5)
    else fst (key_h264_loop f data (S i))
  else Some false.
Proof.
  cbn [key_h264_loop].
  destruct (Z.of_nat i <? Z.of_nat (List.length data) - 4); [| reflexivity].
  rewrite bind_fst, start_code_fst.
  destruct (start_code_at data i); [| reflexivity].
  rewrite !bind_fst, get_eq_1, read_fst. reflexivity.
Qed.

Lemma key_h265_loop_fst f data i :
  fst (key_h265_loop (S f) data i) =
  if Z.of_nat i <? Z.of_nat (List.length data) - 6 then
    if start_code_at data i then
      if is_h265_irap (nal_header data i) then Some true
      else fst (key_h265_loop f data (S i))
    else fst (key_h265_loop f data (S i))
  else Some false.
Proof.
  cbn [key_h265_loop].
  destruct (Z.of_nat i <? Z.of_nat (List.length data) - 6); [| reflexivity].
  rewrite bind_fst, start_code_fst.
  destruct (start_code_at data i); [| reflexivity].
  rewrite !bind_fst, nal_start_fst, read_fst.
  unfold is_h265_irap, nal_header.
  destruct (Js.includes [16; 17; 18; 19; 20] _); reflexivity.
Qed.

(** Every index read by a loop lies inside the buffer. *)
Ltac reads_step :=
  repeat match goal with
         | H : In _ (snd (bind _ _)) |- _ =>
           apply bind_reads in H; destruct H as [H | H]
         | H : In _ (snd (start_code _ _)) |- _ => apply start_code_snd in H
         | H : In _ (snd (nal_start _ _)) |- _ =>
           rewrite nal_start_snd in H; destruct H as [H | []]
         | H : In _ (snd (get_eq _ _ _)) |- _ =>
           rewrite get_eq_snd in H; destruct H as [H | []]
         | H : In _ (snd (read _ _)) |- _ => destruct H as [H | []]
         | H : In _ (snd (ret _)) |- _ => destruct H
         | H : In _ (snd (if ?c then _ else _)) |- _ => destruct c
         | H : (if ?c then _ else _) = _ |- _ => destruct c
         end.

Lemma detect_loop_reads f data : forall i j,
  In j (snd (detect_loop f data i)) -> (j < List.length data)%nat.
Proof.
  induction f as [| f IH]; intros i j H; [destruct H |].
  cbn [detect_loop] in H.
  destruct (Z.ltb_spec (Z.of_nat i) (Z.of_nat (List.length data) - 6))
    as [Hi | Hi]; [| destruct H].
  pose proof (nal_start_le data i).
  reads_step; try (eapply IH; eassumption); lia.
Qed.

Lemma key_h264_loop_reads f data : forall i j,
  In j (snd (key_h264_loop f data i)) -> (j < List.length data)%nat.
Proof.
  induction f as [| f IH]; intros i j H; [destruct H |].
  cbn [key_h264_loop] in H.
  destruct (Z.ltb_spec (Z.of_nat i) (Z.of_nat (List.length data) - 4))
    as [Hi | Hi]; [| destruct H].
  reads_step; try (eapply IH; eassumption); lia.
Qed.

Lemma key_h265_loop_reads f data : forall i j,
  In j (snd (key_h265_loop f data i)) -> (j < List.length data)%nat.
Proof.
  induction f as [| f IH]; intros i j H; [destruct H |].
  cbn [key_h265_loop] in H.
  destruct (Z.ltb_spec (Z.of_nat i) (Z.of_nat (List.length data) - 6))
    as [Hi | Hi]; [| destruct H].
  pose proof (nal_start_le data i).
  reads_step; try (eapply IH; eassumption); lia.
Qed.

(* ================================================================== *)
(** ** What the scans return                                           *)
(* ================================================================== *)

Section Scans.

Variable data : Uint8Array.

Let len := List.length data.

Ltac guard_true :=
  match goal with
  | |- context [Z.of_nat ?i <? ?b] =>
    let G := fresh "G" in
    destruct (Z.ltb_spec (Z.of_nat i) b) as [G | G]; [| unfold len in *; lia]
  end.

Ltac guard_split :=
  match goal with
  | |- context [Z.of_nat ?i <? ?b] =>
    let G := fresh "G" in
    destruct (Z.ltb_spec (Z.of_nat i) b) as [G | G]
  end.

(** [detectCodec] answers [h264] at the first start code in its range
    whose header matches one of the two families, when it matches the
    H.264 one. *)
Lemma detect_loop_h264 : forall f i k,
  (i <= k)%nat -> (k - i < f)%nat -> (k + 6 < len)%nat ->
  start_code_at data k = true ->
  is_h264_param_or_idr (nal_header data k) = true ->
  (forall j, (i <= j < k)%nat -> start_code_at data j = true ->
             is_h264_param_or_idr (nal_header data j) = false /\
             is_h265_param_or_idr (nal_header data j) = false) ->
  fst (detect_loop f data i) = Some h264.
Proof.
  induction f as [| f IH]; intros i k Hik Hf Hk Hsc Hm Hbefore; [lia |].
  rewrite detect_loop_fst. guard_true.
  destruct (Nat.eq_dec i k) as [-> | Hne].
  - now rewrite Hsc, Hm.
  - destruct (start_code_at data i) eqn:Ei.
    + destruct (Hbefore i) as [E4 E5]; [lia | assumption |].
      rewrite E4, E5. apply (IH (S i) k); try lia; try assumption.
      intros j Hj. apply Hbefore. lia.
    + apply (IH (S i) k); try lia; try assumption.
      intros j Hj. apply Hbefore. lia.
Qed.

(** [detectCodec] answers [h265] when a start code in its range has an
    H.265 header of the listed types and no start code up to there has a
    header of the listed H.264 types. *)
Lemma detect_loop_h265 : forall f i k,
  (i <= k)%nat -> (k - i < f)%nat -> (k + 6 < len)%nat ->
  start_code_at data k = true ->
  is_h265_param_or_idr (nal_header data k) = true ->
  (forall j, (i <= j <= k)%nat -> start_code_at data j = true ->
             is_h264_param_or_idr (nal_header data j) = false) ->
  fst (detect_loop f data i) = Some h265.
Proof.
  induction f as [| f IH]; intros i k Hik Hf Hk Hsc Hm Hno264; [lia |].
  rewrite detect_loop_fst. guard_true.
  destruct (start_code_at data i) eqn:Ei.
  - rewrite (Hno264 i) by (lia || assumption).
    destruct (is_h265_param_or_idr (nal_header data i)) eqn:E5;
      [reflexivity |].
    assert (i <> k) by (intros ->; congruence).
    apply (IH (S i) k); try lia; try assumption.
    intros j Hj. apply Hno264. lia.
  - assert (i <> k) by (intros ->; congruence).
    apply (IH (S i) k); try lia; try assumption.
    intros j Hj. apply Hno264. lia.
Qed.

(** [detectCodec] answers [unknown] when no start code in its range has
    a header of a listed type. *)
Lemma detect_loop_unknown : forall f i,
  (i <= len)%nat -> (len < f + i)%nat ->
  (forall j, (i <= j)%nat -> (j + 6 < len)%nat ->
             start_code_at data j = true ->
             is_h264_param_or_idr (nal_header data j) = false /\
             is_h265_param_or_idr (nal_header data j) = false) ->
  fst (detect_loop f data i) = Some unknown.
Proof.
  induction f as [| f IH]; intros i Hi Hf Hno; [lia |].
  rewrite detect_loop_fst. guard_split; [| reflexivity].
  assert (Hrec : fst (detect_loop f data (S i)) = Some unknown).
  { apply IH; try (unfold len in *; lia).
    intros j Hj. apply Hno. lia. }
  destruct (start_code_at data i) eqn:Ei; [| exact Hrec].
  destruct (Hno i) as [E4 E5];
    [lia | unfold len in *; lia | assumption |].
  now rewrite E4, E5.
Qed.

Lemma detect_loop_total : forall f i,
  (i <= len)%nat -> (len < f + i)%nat ->
  exists c, fst (detect_loop f data i) = Some c.
Proof.
  induction f as [| f IH]; intros i Hi Hf; [lia |].
  rewrite detect_loop_fst. guard_split; [| now exists unknown].
  assert (Hrec : exists c, fst (detect_loop f data (S i)) = Some c)
    by (apply IH; unfold len in *; lia).
  destruct (start_code_at data i); [| exact Hrec].
  destruct (is_h264_param_or_idr _); [now exists h264 |].
  destruct (is_h265_param_or_idr _); [now exists h265 | exact Hrec].
Qed.

(** The H.264 branch of [isKeyFrame] answers from the first start code
    in its range. *)
Lemma key_h264_loop_first : forall f i k,
  (i <= k)%nat -> (k - i < f)%nat -> (k + 4 < len)%nat ->
  start_code_at data k = true ->
  (forall j, (i <= j < k)%nat -> start_code_at data j = false) ->
  fst (key_h264_loop f data i) = Some (h264_type (nal_header data k) =? 5).
Proof.
  induction f as [| f IH]; intros i k Hik Hf Hk Hsc Hbefore; [lia |].
  rewrite key_h264_loop_fst. guard_true.
  destruct (Nat.eq_dec i k) as [-> | Hne].
  - now rewrite Hsc.
  - rewrite (Hbefore i) by lia.
    apply IH; try lia; try assumption.
    intros j Hj. apply Hbefore. lia.
Qed.

Lemma key_h264_loop_none : forall f i,
  (i <= len)%nat -> (len < f + i)%nat ->
  (forall j, (i <= j)%nat -> (j + 4 < len)%nat ->
             start_code_at data j = false) ->
  fst (key_h264_loop f data i) = Some false.
Proof.
  induction f as [| f IH]; intros i Hi Hf Hno; [lia |].
  rewrite key_h264_loop_fst. guard_split; [| reflexivity].
  rewrite (Hno i) by (unfold len in *; lia).
  apply IH; try (unfold len in *; lia).
  intros j Hj. apply Hno. lia.
Qed.

End Scans.

Lemma key_h264_loop_total data : forall f i,
  (i <= List.length data)%nat -> (List.length data < f + i)%nat ->
  exists b, fst (key_h264_loop f data i) = Some b.
Proof.
  induction f as [| f IH]; intros i Hi Hf; [lia |].
  rewrite key_h264_loop_fst.
  destruct (Z.ltb_spec (Z.of_nat i) (Z.of_nat (List.length data) - 4));
    [| now exists false].
  destruct (start_code_at data i); [eexists; reflexivity |].
  apply IH; lia.
Qed.

Lemma key_h265_loop_total data : forall f i,
  (i <= List.length data)%nat -> (List.length data < f + i)%nat ->
  exists b, fst (key_h265_loop f data i) = Some b.
Proof.
  induction f as [| f IH]; intros i Hi Hf; [lia |].
  rewrite key_h265_loop_fst.
  destruct (Z.ltb_spec (Z.of_nat i) (Z.of_nat (List.length data) - 6));
    [| now exists false].
  assert (Hrec : exists b, fst (key_h265_loop f data (S i)) = Some b)
    by (apply IH; lia).
  destruct (start_code_at data i); [| exact Hrec].
  destruct (is_h265_irap _); [now exists true | exact Hrec].
Qed.

(** Both classifiers return on every buffer: the fuel never runs out. *)
Lemma detectCodec_returns data :
  fst (detectCodec_rd data) = Some (detectCodec data).
Proof.
  unfold detectCodec.
  destruct (detect_loop_total data (S (List.length data)) 0) as [c Hc];
    try lia.
  unfold detectCodec_rd. now rewrite Hc.
Qed.

Lemma isKeyFrame_returns data codec :
  fst (isKeyFrame_rd data codec) = Some (isKeyFrame data codec).
Proof.
  unfold isKeyFrame, isKeyFrame_rd.
  destruct (is_h264_codec codec).
  - destruct (key_h264_loop_total data (S (List.length data)) 0) as [b Hb];
      try lia.
    now rewrite Hb.
  - destruct (is_h265_codec codec); [| reflexivity].
    destruct (key_h265_loop_total data (S (List.length data)) 0) as [b Hb];
      try lia.
    now rewrite Hb.
Qed.

(* ================================================================== *)
(** ** Properties of the bitstream classifier                          *)
(* ================================================================== *)

Lemma forallb_seq_lt (f : nat -> bool) n :
  forallb f (seq 0 n) = true -> forall j, (j < n)%nat -> f j = true.
Proof.
  intros H j Hj. rewrite forallb_forall in H. apply H.
  apply in_seq. lia.
Qed.

Lemma start_code_at_inside data j :
  start_code_at data j = true -> (j < List.length data)%nat.
Proof.
  unfold start_code_at, byte_is. intros H.
  destruct (nth_error data j) eqn:E; [| discriminate].
  apply nth_error_Some. congruence.
Qed.

Lemma no_start_code_all data :
  no_start_code data = true -> forall j, start_code_at data j = false.
Proof.
  intros H j. destruct (start_code_at data j) eqn:E; [| reflexivity].
  apply start_code_at_inside in E as Hj.
  apply (forallb_seq_lt _ _ H) in Hj. now rewrite E in Hj.
Qed.

Lemma first_start_code_inv data i :
  first_start_code data i = true ->
  start_code_at data i = true /\
  forall j, (j < i)%nat -> start_code_at data j = false.
Proof.
  unfold first_start_code. intros H. apply andb_prop in H as [H1 H2].
  split; [assumption |]. intros j Hj.
  apply (forallb_seq_lt _ _ H2) in Hj. now apply negb_true_iff in Hj.
Qed.

Lemma first_classified_inv data i :
  first_classified data i = true ->
  (i + 6 < List.length data)%nat /\ start_code_at data i = true /\
  (is_h264_param_or_idr (nal_header data i)
   || is_h265_param_or_idr (nal_header data i)) = true /\
  forall j, (j < i)%nat -> start_code_at data j = true ->
            is_h264_param_or_idr (nal_header data j) = false /\
            is_h265_param_or_idr (nal_header data j) = false.
Proof.
  unfold first_classified, classified_at. intros H.
  apply andb_prop in H as [H H3]. apply andb_prop in H as [H1 H2].
  apply andb_prop in H2 as [H2 H2'].
  apply Z.ltb_lt in H1.
  split; [lia |]. split; [assumption |]. split; [assumption |].
  intros j Hj Hsc.
  pose proof (forallb_seq_lt _ _ H3 j Hj) as Hc. cbv beta in Hc.
  apply negb_true_iff in Hc. rewrite Hsc in Hc.
  now apply orb_false_elim in Hc.
Qed.

Lemma detectCodec_fst data c :
  fst (detect_loop (S (List.length data)) data 0) = Some c ->
  detectCodec data = c.
Proof. unfold detectCodec, detectCodec_rd. now intros ->. Qed.

Lemma isKeyFrame_h264_fst data codec b :
  is_h264_codec codec = true ->
  fst (key_h264_loop (S (List.length data)) data 0) = Some b ->
  isKeyFrame data codec = b.
Proof. unfold isKeyFrame, isKeyFrame_rd. now intros -> ->. Qed.

Lemma isKeyFrame_h265_fst data codec b :
  is_h264_codec codec = false -> is_h265_codec codec = true ->
  fst (key_h265_loop (S (List.length data)) data 0) = Some b ->
  isKeyFrame data codec = b.
Proof. unfold isKeyFrame, isKeyFrame_rd. now intros -> -> ->. Qed.

(** C6. A buffer shorter than 6 bytes, or one in which no start code
    begins, makes [detectCodec] return ['unknown']: the call returns (no
    exception, the scan ends), and every index it reads is an index of the
    buffer. *)
Theorem detectCodec_short_or_no_start_code (data : Uint8Array) :
  (List.length data < 6)%nat \/ no_start_code data = true ->
  fst (detectCodec_rd data) = Some unknown /\
  detectCodec data = unknown /\
  Forall (fun j => (j < List.length data)%nat) (detectCodec_reads data).
Proof.
  intros H.
  assert (E : fst (detect_loop (S (List.length data)) data 0) = Some unknown).
  { apply detect_loop_unknown; try lia.
    intros j _ Hj Hsc. destruct H as [H | H]; [lia |].
    rewrite (no_start_code_all _ H j) in Hsc. discriminate. }
  repeat split.
  - exact E.
  - now apply detectCodec_fst.
  - apply Forall_forall. intros j Hj.
    eapply detect_loop_reads. exact Hj.
Qed.

Lemma detectCodec_short_buffer_witness :
  fst (detectCodec_rd [x00; x00; x01; x65; x88]) = Some unknown /\
  detectCodec [x00; x00; x01; x65; x88] = unknown /\
  Forall (fun j => (j < 5)%nat) (detectCodec_reads [x00; x00; x01; x65; x88]).
Proof.
  apply (detectCodec_short_or_no_start_code [x00; x00; x01; x65; x88]).
  left. simpl. lia.
Defined.

Lemma isKeyFrame_h264_first data i codec :
  first_start_code data i = true -> is_h264_codec codec = true ->
  (i + 4 < List.length data)%nat ->
  isKeyFrame data codec = (h264_type (nal_header data i) =? 5).
Proof.
  intros Hfirst Hcodec Hi.
  apply first_start_code_inv in Hfirst as [Hsc Hbefore].
  apply isKeyFrame_h264_fst; [assumption |].
  apply (key_h264_loop_first data _ 0%nat i); try lia; try assumption.
  intros j Hj. apply Hbefore. lia.
Qed.

Lemma isKeyFrame_h264_not_idr data i codec :
  first_start_code data i = true -> is_h264_codec codec = true ->
  h264_type (nal_header data i) <> 5 ->
  isKeyFrame data codec = false.
Proof.
  intros Hfirst Hcodec Ht.
  destruct (Nat.lt_ge_cases (i + 4) (List.length data)) as [Hi | Hi].
  - rewrite (isKeyFrame_h264_first data i) by assumption.
    now apply Z.eqb_neq.
  - apply first_start_code_inv in Hfirst as [Hsc Hbefore].
    apply isKeyFrame_h264_fst; [assumption |].
    apply key_h264_loop_none; try lia.
    intros j _ Hj. apply Hbefore. lia.
Qed.

(** C5. When the first start code of the buffer is followed by a header
    of H.264 type 5, [detectCodec] returns ['h264'] provided its scan
    reaches that start code (index below [length - 6]) and [isKeyFrame]
    with an H.264 codec string returns true provided its own scan does
    (index below [length - 4]); when the header is of another H.264 type,
    [isKeyFrame] with an H.264 codec string returns false. *)
Theorem h264_first_nal_idr (data : Uint8Array) (i : nat) (codec : string) :
  first_start_code data i = true ->
  is_h264_codec codec = true ->
  (h264_type (nal_header data i) = 5 ->
   ((i + 6 < List.length data)%nat -> detectCodec data = h264) /\
   ((i + 4 < List.length data)%nat -> isKeyFrame data codec = true)) /\
  (h264_type (nal_header data i) <> 5 -> isKeyFrame data codec = false).
Proof.
  intros Hfirst Hcodec.
  split; [intros Ht; split; intros Hi | intros Ht].
  - apply first_start_code_inv in Hfirst as [Hsc Hbefore].
    apply detectCodec_fst.
    apply (detect_loop_h264 data _ 0%nat i); try lia; try assumption.
    + unfold is_h264_param_or_idr. now rewrite Ht.
    + intros j Hj Hscj. rewrite Hbefore in Hscj by lia. discriminate.
  - rewrite (isKeyFrame_h264_first data i) by assumption. now rewrite Ht.
  - now apply (isKeyFrame_h264_not_idr data i).
Qed.

Lemma h264_first_nal_idr_witness :
  detectCodec [x00; x00; x00; x01; x65; x88; x84; x00; x33; xff] = h264 /\
  isKeyFrame [x00; x00; x00; x01; x65; x88; x84; x00; x33; xff] "avc1.42E01E"
  = true.
Proof.
  destruct (h264_first_nal_idr
              [x00; x00; x00; x01; x65; x88; x84; x00; x33; xff] 0
              "avc1.42E01E" eq_refl eq_refl) as [H _].
  destruct (H eq_refl) as [H1 H2].
  split; [apply H1 | apply H2]; simpl; lia.
Defined.

(** C9. At a start code the H.264 reading of the header is tested before
    the H.265 one: when the first header of a listed type that the scan of
    [detectCodec] meets is of a listed type in both families, as the byte
    0x27 is, the answer is ['h264'] and not ['h265']. *)
Theorem detectCodec_h264_precedence (data : Uint8Array) (i : nat) :
  first_classified data i = true ->
  (is_h264_param_or_idr (nal_header data i) = true ->
   is_h265_param_or_idr (nal_header data i) = true ->
   detectCodec data = h264 /\ detectCodec data <> h265) /\
  (nal_header data i = Some x27 -> detectCodec data = h264).
Proof.
  intros H. apply first_classified_inv in H as (Hi & Hsc & _ & Hbefore).
  assert (G : is_h264_param_or_idr (nal_header data i) = true ->
              detectCodec data = h264).
  { intros H4. apply detectCodec_fst.
    apply (detect_loop_h264 data _ 0%nat i); try lia; try assumption.
    intros j Hj. apply Hbefore. lia. }
  split.
  - intros H4 _. rewrite (G H4). split; [reflexivity | discriminate].
  - intros E. apply G. now rewrite E.
Qed.

Lemma detectCodec_h264_precedence_witness :
  detectCodec [x00; x00; x01; x27; x01; xaf; x08; x40; x21; x00] = h264.
Proof.
  apply (detectCodec_h264_precedence
           [x00; x00; x01; x27; x01; xaf; x08; x40; x21; x00] 0 eq_refl).
  reflexivity.
Defined.

(** C4, as the code has it. [detectCodec] returns ['h265'] when a start
    code at an index below [length - 6] is followed by a header of H.265
    type 32, 33, 34, 19 or 20, and no start code up to that index is
    followed by a header whose low five bits are 5, 7 or 8. *)
Theorem detectCodec_h265 (data : Uint8Array) (i : nat) :
  (i + 6 < List.length data)%nat ->
  start_code_at data i = true ->
  is_h265_param_or_idr (nal_header data i) = true ->
  no_h264_match_upto data i = true ->
  detectCodec data = h265.
Proof.
  intros Hi Hsc H5 Hno. apply detectCodec_fst.
  apply (detect_loop_h265 data _ 0%nat i); try lia; try assumption.
  intros j Hj Hscj.
  pose proof (forallb_seq_lt _ _ Hno j ltac:(lia)) as Hj'. cbv beta in Hj'.
  rewrite Hscj in Hj'. now apply negb_true_iff in Hj'.
Qed.

Lemma detectCodec_h265_witness :
  detectCodec [x00; x00; x00; x01; x40; x01; x0c; x01; xff; xff; x01; x60]
  = h265.
Proof.
  apply (detectCodec_h265
           [x00; x00; x00; x01; x40; x01; x0c; x01; xff; xff; x01; x60] 0).
  - simpl. lia.
  - reflexivity.
  - reflexivity.
  - reflexivity.
Defined.

(** C4 fails as stated: a buffer that begins with an H.265 IDR_N_LP slice
    (header byte 0x28, H.265 type 20) is answered ['h264'], the low five
    bits of 0x28 being 8. *)
Lemma detectCodec_h265_idr_answered_h264 :
  ~ (contains_h265_param_or_idr
       [x00; x00; x00; x01; x28; x01; xaf; x78; xf7; x04; x03; x20] = true ->
     detectCodec [x00; x00; x00; x01; x28; x01; xaf; x78; xf7; x04; x03; x20]
     = h265).
Proof. intros H. specialize (H eq_refl). discriminate H. Qed.

Lemma seq_cons_lt i n : (i < n)%nat -> seq i (n - i) = i :: seq (S i) (n - S i).
Proof.
  intros H. replace (n - i)%nat with (S (n - S i)) by lia. reflexivity.
Qed.

Lemma key_h264_loop_spec data : forall f i,
  (i <= List.length data)%nat -> (List.length data < f + i)%nat ->
  fst (key_h264_loop f data i) =
  Some match find (start_code_at data)
                  (seq i (Z.to_nat (Z.of_nat (List.length data) - 4) - i)) with
       | Some k => h264_type (nal_header data k) =? 5
       | None => false
       end.
Proof.
  induction f as [| f IH]; intros i Hi Hf; [lia |].
  rewrite key_h264_loop_fst.
  destruct (Z.ltb_spec (Z.of_nat i) (Z.of_nat (List.length data) - 4)) as [G | G].
  - rewrite seq_cons_lt by lia. cbn [find].
    destruct (start_code_at data i); [reflexivity |].
    apply IH; lia.
  - replace (Z.to_nat (Z.of_nat (List.length data) - 4) - i)%nat with 0%nat
      by lia.
    reflexivity.
Qed.

Lemma key_h265_loop_spec data : forall f i,
  (i <= List.length data)%nat -> (List.length data < f + i)%nat ->
  fst (key_h265_loop f data i) =
  Some (existsb (fun k => start_code_at data k
                          && is_h265_irap (nal_header data k))
                (seq i (Z.to_nat (Z.of_nat (List.length data) - 6) - i))).
Proof.
  induction f as [| f IH]; intros i Hi Hf; [lia |].
  rewrite key_h265_loop_fst.
  destruct (Z.ltb_spec (Z.of_nat i) (Z.of_nat (List.length data) - 6)) as [G | G].
  - rewrite seq_cons_lt by lia. cbn [existsb].
    rewrite (IH (S i)) by lia.
    destruct (start_code_at data i); [| reflexivity].
    now destruct (is_h265_irap (nal_header data i)).
  - replace (Z.to_nat (Z.of_nat (List.length data) - 6) - i)%nat with 0%nat
      by lia.
    reflexivity.
Qed.

(** The two families of codec strings are disjoint. *)
Lemma h265_codec_not_h264 codec :
  is_h265_codec codec = true -> is_h264_codec codec = false.
Proof.
  unfold is_h265_codec, is_h264_codec, Js.startsWith.
  destruct codec as [| a1 [| a2 [| a3 [| a4 rest]]]];
    cbn [String.prefix orb];
    repeat match goal with
           | |- context [Ascii.ascii_dec ?a ?b] =>
             let E := fresh "E" in
             destruct (Ascii.ascii_dec a b) as [E | E];
             [try discriminate E; try subst | ];
             cbn [String.prefix orb]
           end; try reflexivity; try discriminate.
Qed.

(** C10, as the code has it. With an H.264 codec string [isKeyFrame]
    answers from the first start code below [length - 4] alone, so that a
    buffer whose first NAL unit is not an IDR slice is not a key frame
    whatever follows; with an H.265 codec string it answers true exactly
    when some start code below [length - 6] is followed by a header of
    type 16 to 20; with any other codec string it answers true and reads
    nothing of the buffer. *)
Theorem isKeyFrame_by_family (data : Uint8Array) (codec : string) :
  (is_h264_codec codec = true ->
   isKeyFrame data codec = key_h264_spec data /\
   forall i, first_start_code data i = true ->
             h264_type (nal_header data i) <> 5 ->
             isKeyFrame data codec = false) /\
  (is_h265_codec codec = true ->
   isKeyFrame data codec = key_h265_spec data) /\
  (is_h264_codec codec = false -> is_h265_codec codec = false ->
   isKeyFrame data codec = true /\ isKeyFrame_reads data codec = []).
Proof.
  split; [| split].
  - intros H4. split.
    + apply isKeyFrame_h264_fst; [assumption |].
      rewrite key_h264_loop_spec by lia.
      unfold key_h264_spec. now rewrite Nat.sub_0_r.
    + intros i Hfirst Ht. now apply (isKeyFrame_h264_not_idr data i).
  - intros H5. pose proof (h265_codec_not_h264 codec H5) as H4.
    apply isKeyFrame_h265_fst; try assumption.
    rewrite key_h265_loop_spec by lia.
    unfold key_h265_spec. now rewrite Nat.sub_0_r.
  - intros H4 H5. unfold isKeyFrame, isKeyFrame_reads, isKeyFrame_rd.
    now rewrite H4, H5.
Qed.

Lemma isKeyFrame_by_family_witness :
  isKeyFrame [x00; x00; x00; x01; x41; x9a; x00; x00; x01; x65; x88; x84]
             "avc1.42E01E" = false /\
  isKeyFrame [x00; x00; x01; x02; x01; xd0; x00; x00; x01; x26; x01; xaf;
              x08; x40; x21; x00] "hvc1.1.6.L93.B0" = true /\
  isKeyFrame [x00; x00; x01; x02; x01; xd0; x09; x7e; x10; x00] "vp8" = true /\
  isKeyFrame_reads [x00; x00; x01; x02; x01; xd0; x09; x7e; x10; x00] "vp8" = [].
Proof.
  split; [| split].
  - destruct (isKeyFrame_by_family
                [x00; x00; x00; x01; x41; x9a; x00; x00; x01; x65; x88; x84]
                "avc1.42E01E") as [H _].
    destruct (H eq_refl) as [_ H'].
    apply (H' 0%nat); [reflexivity | discriminate].
  - destruct (isKeyFrame_by_family
                [x00; x00; x01; x02; x01; xd0; x00; x00; x01; x26; x01; xaf;
                 x08; x40; x21; x00] "hvc1.1.6.L93.B0") as [_ [H _]].
    rewrite (H eq_refl). reflexivity.
  - destruct (isKeyFrame_by_family
                [x00; x00; x01; x02; x01; xd0; x09; x7e; x10; x00] "vp8")
      as [_ [_ H]].
    apply H; reflexivity.
Defined.

(** C10 fails as stated for the H.265 family: a start code in the last
    six bytes of the buffer is not visited, so the IDR header (type 19)
    of this six byte buffer is not seen. *)
Lemma isKeyFrame_h265_unvisited_idr :
  ~ (contains_h265_irap [x00; x00; x01; x26; x01; xaf] = true ->
     isKeyFrame [x00; x00; x01; x26; x01; xaf] "hvc1.1.6.L93.B0" = true).
Proof. intros H. specialize (H eq_refl). discriminate H. Qed.

(* ================================================================== *)
(** ** Properties of the message handler                               *)
(* ================================================================== *)

Section Handlers.

Variable D : Type.
Variable configure : string -> D.
Variable decode : D -> EncodedVideoChunk -> D * bool.

Lemma decoded_app a b : decoded (a ++ b) = decoded a ++ decoded b.
Proof. apply flat_map_app. Qed.

Lemma errors_set_app a b : errors_set (a ++ b) = errors_set a ++ errors_set b.
Proof. apply flat_map_app. Qed.

Lemma closes_app a b : closes (a ++ b) = closes a || closes b.
Proof. apply existsb_app. Qed.

Lemma uncaught_app a b : uncaught (a ++ b) = uncaught a || uncaught b.
Proof. apply existsb_app. Qed.

Lemma detect_calls_app a b :
  detect_calls (a ++ b) = detect_calls a ++ detect_calls b.
Proof. apply flat_map_app. Qed.

Lemma key_calls_app a b : key_calls (a ++ b) = key_calls a ++ key_calls b.
Proof. apply flat_map_app. Qed.

Lemma In_decoded c effs : In (Decode c) effs -> In c (decoded effs).
Proof.
  intros H. unfold decoded. apply in_flat_map.
  exists (Decode c). split; [assumption | now left].
Qed.

(** The detection statement touches neither ref nor the error state, and
    calls neither the decoder nor the transport. *)
Lemma detect_stage_frame (cl : closure) (st : component D) uint8 :
  decoderRef (fst (detect_stage cl st uint8)) = decoderRef st /\
  wsRef (fst (detect_stage cl st uint8)) = wsRef st /\
  state_error (fst (detect_stage cl st uint8)) = state_error st /\
  decoded (snd (detect_stage cl st uint8)) = [] /\
  errors_set (snd (detect_stage cl st uint8)) = [] /\
  closes (snd (detect_stage cl st uint8)) = false /\
  uncaught (snd (detect_stage cl st uint8)) = false.
Proof.
  unfold detect_stage.
  destruct (negb (truthy (autoCodec cl))); [| now repeat split].
  destruct (negb (codec_family_eqb (detectCodec uint8) unknown));
    now repeat split.
Qed.

(** One access unit, gate closed, classified as delta: the unit is
    dropped; nothing is submitted and no error is set. *)
Lemma onmessage_dropped cl (st : component D) dec u :
  decoderRef st = Some dec ->
  gate_closed dec = true ->
  classify cl u = delta ->
  decoded (snd (onmessage decode cl st (unit_event u))) = [] /\
  errors_set (snd (onmessage decode cl st (unit_event u))) = [] /\
  closes (snd (onmessage decode cl st (unit_event u))) = false /\
  uncaught (snd (onmessage decode cl st (unit_event u))) = false /\
  state_error (fst (onmessage decode cl st (unit_event u))) = state_error st /\
  wsRef (fst (onmessage decode cl st (unit_event u))) = wsRef st /\
  exists dec', decoderRef (fst (onmessage decode cl st (unit_event u)))
               = Some dec' /\ gate_closed dec' = true.
Proof.
  intros Hdec Hgate Hk.
  destruct (detect_stage_frame cl st (fst u)) as (F1 & F2 & F3 & F4 & F5 & F6 & F7).
  unfold onmessage, unit_event. cbn [msg_data msg_now].
  rewrite F1, Hdec.
  unfold classify, useCodec in Hk.
  destruct (isKeyFrame (fst u) (or_else (autoCodec cl) (codec cl)));
    [discriminate |].
  assert (W : waiting (match _waitForKeyFrame dec with
                       | Some _ => dec
                       | None => set_wait D dec true
                       end) = true).
  { revert Hgate. unfold gate_closed, waiting.
    destruct dec as [x [[|] |]]; cbn; try reflexivity; discriminate. }
  rewrite W. cbn [andb negb fst snd].
  rewrite decoded_app, errors_set_app, closes_app, uncaught_app, F4, F5, F6, F7.
  cbn. repeat split; try assumption.
  eexists. split; [reflexivity |].
  revert Hgate. unfold gate_closed. now destruct dec as [x [[|] |]].
Qed.

(** One access unit that is not dropped (gate open, or unit classified as
    key): it is submitted with the kind it was classified as, and the gate
    is open afterwards. *)
Lemma onmessage_submitted cl (st : component D) dec u :
  decoderRef st = Some dec ->
  gate_closed dec = false \/ classify cl u = key ->
  decoded (snd (onmessage decode cl st (unit_event u))) = [unit_chunk cl u] /\
  closes (snd (onmessage decode cl st (unit_event u))) = false /\
  uncaught (snd (onmessage decode cl st (unit_event u))) = false /\
  wsRef (fst (onmessage decode cl st (unit_event u))) = wsRef st /\
  state_error (fst (onmessage decode cl st (unit_event u)))
  = (if snd (decode (dec_internal dec) (unit_chunk cl u))
     then Some "instant.deviceList.deviceDecodeFailed"%string
     else state_error st) /\
  errors_set (snd (onmessage decode cl st (unit_event u)))
  = (if snd (decode (dec_internal dec) (unit_chunk cl u))
     then ["instant.deviceList.deviceDecodeFailed"%string] else []) /\
  exists dec', decoderRef (fst (onmessage decode cl st (unit_event u)))
               = Some dec' /\ gate_closed dec' = false.
Proof.
  intros Hdec Hsub.
  destruct (detect_stage_frame cl st (fst u)) as (F1 & F2 & F3 & F4 & F5 & F6 & F7).
  unfold onmessage, unit_event. cbn [msg_data msg_now].
  rewrite F1, Hdec.
  set (dec1 := match _waitForKeyFrame dec with
               | Some _ => dec
               | None => set_wait D dec true
               end).
  assert (I1 : dec_internal dec1 = dec_internal dec)
    by (unfold dec1; now destruct (_waitForKeyFrame dec)).
  assert (E : waiting dec1
              && negb (isKeyFrame (fst u) (or_else (autoCodec cl) (codec cl)))
              = false).
  { destruct Hsub as [Hg | Hk].
    - revert Hg. unfold gate_closed, dec1, waiting.
      now destruct dec as [x [[|] |]].
    - unfold classify, useCodec in Hk.
      destruct (isKeyFrame (fst u) (or_else (autoCodec cl) (codec cl)));
        [apply andb_false_r | discriminate]. }
  rewrite E.
  set (dec2 := if waiting dec1 then set_wait D dec1 false else dec1).
  assert (I2 : dec_internal dec2 = dec_internal dec)
    by (unfold dec2; now destruct (waiting dec1)).
  assert (G2 : _waitForKeyFrame dec2 = Some false).
  { unfold dec2, waiting, dec1.
    destruct Hsub as [Hg | Hk].
    - revert Hg. unfold gate_closed.
      now destruct dec as [x [[|] |]].
    - now destruct dec as [x [[|] |]]. }
  fold (useCodec cl).
  change {| chunk_type := if isKeyFrame (fst u) (useCodec cl) then key else delta;
            chunk_timestamp := snd u; chunk_data := fst u |}
    with (unit_chunk cl u).
  rewrite I2.
  destruct (snd (decode (dec_internal dec) (unit_chunk cl u)));
    cbn [fst snd];
    rewrite !decoded_app, !errors_set_app, !closes_app, !uncaught_app,
      F4, F5, F6, F7;
    cbn; (repeat split; try assumption);
    eexists; (split; [reflexivity |]); unfold gate_closed; cbn; now rewrite G2.
Qed.

(** Whether a unit is dropped or submitted, a decoder stays in
    [decoderRef]. *)
Lemma onmessage_keeps_decoder cl (st : component D) dec u :
  decoderRef st = Some dec ->
  exists dec', decoderRef (fst (onmessage decode cl st (unit_event u)))
               = Some dec'.
Proof.
  intros Hdec.
  destruct (gate_closed dec) eqn:G; [destruct (classify cl u) eqn:K |].
  - destruct (onmessage_submitted cl st dec u Hdec (or_intror K))
      as (_ & _ & _ & _ & _ & _ & dec' & H & _). now exists dec'.
  - destruct (onmessage_dropped cl st dec u Hdec G K)
      as (_ & _ & _ & _ & _ & _ & dec' & H & _). now exists dec'.
  - destruct (onmessage_submitted cl st dec u Hdec (or_introl G))
      as (_ & _ & _ & _ & _ & _ & dec' & H & _). now exists dec'.
Qed.

(** Once the gate is open every unit of the session is submitted. *)
Lemma session_run_open cl : forall units (st : component D) dec,
  decoderRef st = Some dec -> gate_closed dec = false ->
  decoded (snd (session_run decode cl st (map unit_event units)))
  = map (unit_chunk cl) units.
Proof.
  induction units as [| u units IH]; intros st dec Hdec Hg; [reflexivity |].
  cbn [map session_run snd]. rewrite decoded_app.
  destruct (onmessage_submitted cl st dec u Hdec (or_introl Hg))
    as (E & _ & _ & _ & _ & _ & dec' & Hdec' & Hg').
  rewrite E, (IH _ dec' Hdec' Hg'). reflexivity.
Qed.

(** While the gate is closed the units are dropped up to the first one
    classified as key. *)
Lemma session_run_closed cl : forall units (st : component D) dec,
  decoderRef st = Some dec -> gate_closed dec = true ->
  decoded (snd (session_run decode cl st (map unit_event units)))
  = map (unit_chunk cl) (from_first_key cl units).
Proof.
  induction units as [| u units IH]; intros st dec Hdec Hg; [reflexivity |].
  cbn [map session_run snd from_first_key]. rewrite decoded_app.
  destruct (classify cl u) eqn:K.
  - destruct (onmessage_submitted cl st dec u Hdec (or_intror K))
      as (E & _ & _ & _ & _ & _ & dec' & Hdec' & Hg').
    rewrite E, (session_run_open cl units _ dec' Hdec' Hg'). reflexivity.
  - destruct (onmessage_dropped cl st dec u Hdec Hg K)
      as (E & _ & _ & _ & _ & _ & dec' & Hdec' & Hg').
    rewrite E, (IH _ dec' Hdec' Hg'). reflexivity.
Qed.

Lemma session_run_all_dropped cl : forall units (st : component D) dec,
  decoderRef st = Some dec -> gate_closed dec = true ->
  Forall (fun u => classify cl u = delta) units ->
  decoded (snd (session_run decode cl st (map unit_event units))) = [] /\
  errors_set (snd (session_run decode cl st (map unit_event units))) = [] /\
  uncaught (snd (session_run decode cl st (map unit_event units))) = false /\
  state_error (fst (session_run decode cl st (map unit_event units)))
  = state_error st.
Proof.
  induction units as [| u units IH]; intros st dec Hdec Hg Hall;
    [now repeat split |].
  inversion Hall as [| ? ? K Hall']; subst.
  cbn [map session_run fst snd].
  rewrite decoded_app, errors_set_app, uncaught_app.
  destruct (onmessage_dropped cl st dec u Hdec Hg K)
    as (E1 & E2 & _ & E3 & E4 & _ & dec' & Hdec' & Hg').
  destruct (IH _ dec' Hdec' Hg' Hall') as (I1 & I2 & I3 & I4).
  rewrite E1, E2, E3, I1, I2, I3, I4, E4. now repeat split.
Qed.

(** C1. A session whose gate is closed (the flag true, or not yet set,
    which the handler turns into true) handles its access units in
    arrival order so that: the units classified as delta before the first
    key unit are dropped without any submission to the decoder, any error
    being set or any exception; a unit classified as key opens the gate
    and is submitted; exactly the units from the first key unit on are
    submitted, each with the kind it was classified as; and of four units
    classified delta, delta, key, delta exactly the last two are
    submitted. *)
Theorem decode_gate (cl : closure) (st : component D) (dec : VideoDecoder D) :
  decoderRef st = Some dec ->
  gate_closed dec = true ->
  (forall units,
      Forall (fun u => classify cl u = delta) units ->
      decoded (snd (session_run decode cl st (map unit_event units))) = [] /\
      errors_set (snd (session_run decode cl st (map unit_event units))) = [] /\
      uncaught (snd (session_run decode cl st (map unit_event units))) = false /\
      state_error (fst (session_run decode cl st (map unit_event units)))
      = state_error st) /\
  (forall u,
      classify cl u = key ->
      decoded (snd (onmessage decode cl st (unit_event u))) = [unit_chunk cl u] /\
      exists dec', decoderRef (fst (onmessage decode cl st (unit_event u)))
                   = Some dec' /\ _waitForKeyFrame dec' = Some false) /\
  (forall units,
      decoded (snd (session_run decode cl st (map unit_event units)))
      = map (unit_chunk cl) (from_first_key cl units)) /\
  (forall d1 d2 k d3,
      classify cl d1 = delta -> classify cl d2 = delta ->
      classify cl k = key -> classify cl d3 = delta ->
      decoded (snd (session_run decode cl st (map unit_event [d1; d2; k; d3])))
      = [unit_chunk cl k; unit_chunk cl d3]).
Proof.
  intros Hdec Hg. split; [| split; [| split]].
  - intros units Hall. now apply (session_run_all_dropped cl units st dec).
  - intros u K.
    destruct (onmessage_submitted cl st dec u Hdec (or_intror K))
      as (E & _ & _ & _ & _ & _ & dec' & Hdec' & Hg').
    split; [exact E |]. exists dec'. split; [exact Hdec' |].
    revert Hg'. unfold gate_closed.
    now destruct (_waitForKeyFrame dec') as [[|] |].
  - intros units. now apply (session_run_closed cl units st dec).
  - intros d1 d2 k d3 K1 K2 K3 K4.
    rewrite (session_run_closed cl _ st dec Hdec Hg).
    cbn [from_first_key]. now rewrite K1, K2, K3.
Qed.

(** C8. When the submission of an access unit to the decoder throws, the
    handler catches it: the error state is set to the decode failure, no
    exception leaves the handler, neither the transport nor the decoder
    is closed, [wsRef] is unchanged and [decoderRef] still holds the
    decoder, and every access unit that follows is submitted. *)
Theorem decode_error_recoverable
        (cl : closure) (st : component D) (dec : VideoDecoder D)
        (u : access_unit) (c : EncodedVideoChunk) :
  decoderRef st = Some dec ->
  In (Decode c) (snd (onmessage decode cl st (unit_event u))) ->
  snd (decode (dec_internal dec) c) = true ->
  errors_set (snd (onmessage decode cl st (unit_event u)))
  = ["instant.deviceList.deviceDecodeFailed"%string] /\
  state_error (fst (onmessage decode cl st (unit_event u)))
  = Some "instant.deviceList.deviceDecodeFailed"%string /\
  uncaught (snd (onmessage decode cl st (unit_event u))) = false /\
  closes (snd (onmessage decode cl st (unit_event u))) = false /\
  wsRef (fst (onmessage decode cl st (unit_event u))) = wsRef st /\
  (exists dec', decoderRef (fst (onmessage decode cl st (unit_event u)))
                = Some dec') /\
  (forall units,
      decoded (snd (session_run decode cl
                      (fst (onmessage decode cl st (unit_event u)))
                      (map unit_event units)))
      = map (unit_chunk cl) units).
Proof.
  intros Hdec Hin Hthrow. apply In_decoded in Hin.
  assert (Hsub : gate_closed dec = false \/ classify cl u = key).
  { destruct (gate_closed dec) eqn:G; [| now left].
    destruct (classify cl u) eqn:K; [now right |].
    destruct (onmessage_dropped cl st dec u Hdec G K) as (E & _).
    rewrite E in Hin. destruct Hin. }
  destruct (onmessage_submitted cl st dec u Hdec Hsub)
    as (E & Ec & Eu & Ew & Es & Ee & dec' & Hdec' & Hg').
  rewrite E in Hin. destruct Hin as [<- | []].
  rewrite Hthrow in Es, Ee.
  repeat split; try assumption.
  - now exists dec'.
  - intros units. now apply (session_run_open cl units _ dec').
Qed.

End Handlers.

Lemma decode_gate_witness :
  decoded
    (snd (session_run sample_decode default_closure
            (session_start sample_configure default_closure
                           "ws://host/api/miot/ws/video_stream" None)
            (map unit_event
                 [([x00; x00; x00; x01; x41; x9a; x24; x6c; x41; x4f], 10);
                  ([x00; x00; x00; x01; x41; x9a; x48; x2d; x13; x7f], 50);
                  ([x00; x00; x00; x01; x65; x88; x84; x00; x33; xff], 90);
                  ([x00; x00; x00; x01; x41; x9a; x02; x05; x84; x21], 130)])))
  = [ {| chunk_type := key; chunk_timestamp := 90;
         chunk_data := [x00; x00; x00; x01; x65; x88; x84; x00; x33; xff] |};
      {| chunk_type := delta; chunk_timestamp := 130;
         chunk_data := [x00; x00; x00; x01; x41; x9a; x02; x05; x84; x21] |} ].
Proof.
  destruct (decode_gate nat sample_decode default_closure
              (session_start sample_configure default_closure
                             "ws://host/api/miot/ws/video_stream" None)
              {| dec_internal := 0%nat; _waitForKeyFrame := None |}
              eq_refl eq_refl) as (_ & _ & _ & H).
  apply (H ([x00; x00; x00; x01; x41; x9a; x24; x6c; x41; x4f], 10)
           ([x00; x00; x00; x01; x41; x9a; x48; x2d; x13; x7f], 50)
           ([x00; x00; x00; x01; x65; x88; x84; x00; x33; xff], 90)
           ([x00; x00; x00; x01; x41; x9a; x02; x05; x84; x21], 130));
    reflexivity.
Defined.

Lemma decode_error_recoverable_witness :
  errors_set
    (snd (onmessage sample_decode default_closure
            (session_start sample_configure default_closure
                           "ws://host/api/miot/ws/video_stream" None)
            (unit_event ([x00; x00; x01; x65; x88], 10))))
  = ["instant.deviceList.deviceDecodeFailed"%string] /\
  wsRef
    (fst (onmessage sample_decode default_closure
            (session_start sample_configure default_closure
                           "ws://host/api/miot/ws/video_stream" None)
            (unit_event ([x00; x00; x01; x65; x88], 10))))
  = Some {| ws_url := "ws://host/api/miot/ws/video_stream" |}.
Proof.
  destruct (decode_error_recoverable nat sample_decode default_closure
              (session_start sample_configure default_closure
                             "ws://host/api/miot/ws/video_stream" None)
              {| dec_internal := 0%nat; _waitForKeyFrame := None |}
              ([x00; x00; x01; x65; x88], 10)
              (unit_chunk default_closure ([x00; x00; x01; x65; x88], 10))
              eq_refl)
    as (H1 & _ & _ & _ & H2 & _).
  - vm_compute. right. right. left. reflexivity.
  - reflexivity.
  - split; [exact H1 | exact H2].
Defined.

(* ================================================================== *)
(** ** The codec of a session                                          *)
(* ================================================================== *)

Section Codec.

Variable D : Type.
Variable configure : string -> D.
Variable decode : D -> EncodedVideoChunk -> D * bool.

Lemma detect_stage_calls cl (st : component D) uint8 :
  detect_calls (snd (detect_stage cl st uint8))
  = (if truthy (autoCodec cl) then [] else [uint8]) /\
  key_calls (snd (detect_stage cl st uint8)) = [].
Proof.
  unfold detect_stage.
  destruct (truthy (autoCodec cl)); [now split |]. cbn [negb].
  now destruct (negb (codec_family_eqb (detectCodec uint8) unknown)).
Qed.

Lemma onmessage_calls cl (st : component D) dec u :
  decoderRef st = Some dec ->
  detect_calls (snd (onmessage decode cl st (unit_event u)))
  = (if truthy (autoCodec cl) then [] else [fst u]) /\
  key_calls (snd (onmessage decode cl st (unit_event u)))
  = [(fst u, useCodec cl)].
Proof.
  intros Hdec.
  destruct (detect_stage_frame D cl st (fst u)) as (F1 & _).
  destruct (detect_stage_calls cl st (fst u)) as (C1 & C2).
  unfold onmessage, unit_event. cbn [msg_data msg_now].
  rewrite F1, Hdec. fold (useCodec cl).
  repeat match goal with
         | |- context [if ?c then _ else _] =>
           lazymatch c with
           | truthy _ => fail
           | _ => destruct c
           end
         end;
    cbn [fst snd];
    rewrite ?detect_calls_app, ?key_calls_app, C1, C2;
    cbn; rewrite ?app_nil_r; split; reflexivity.
Qed.

(** What the handler does in a session that began before any detection:
    it calls [detectCodec] on every access unit, and classifies every
    access unit with the [codec] prop. *)
Lemma detect_on_every_unit cl :
  truthy (autoCodec cl) = false ->
  forall units (st : component D) dec,
    decoderRef st = Some dec ->
    detect_calls (snd (session_run decode cl st (map unit_event units)))
    = map fst units /\
    key_calls (snd (session_run decode cl st (map unit_event units)))
    = map (fun u => (fst u, codec cl)) units.
Proof.
  intros Hauto.
  assert (Huse : useCodec cl = codec cl).
  { unfold useCodec, or_else. revert Hauto.
    destruct (autoCodec cl) as [s |]; [| reflexivity].
    now intros ->. }
  induction units as [| u units IH]; intros st dec Hdec; [now split |].
  cbn [map session_run snd].
  rewrite detect_calls_app, key_calls_app.
  destruct (onmessage_calls cl st dec u Hdec) as (C1 & C2).
  destruct (onmessage_keeps_decoder D decode cl st dec u Hdec) as (dec' & Hdec').
  destruct (IH _ dec' Hdec') as (I1 & I2).
  rewrite C1, C2, I1, I2, Hauto, Huse. now split.
Qed.

(** C3 does not hold of the code. In a session given the default codec,
    the first unit (an H.265 VPS) is detected as ['h265'] and
    [setAutoCodec('hvc1.1.6.L93.B0')] is called; on the second unit (an
    H.265 IDR slice) [detectCodec] is called again and the unit is
    classified with ['avc1.42E01E'], not with the detected profile, under
    which it is a key frame; it is dropped. *)
Theorem sticky_codec_not_applied :
  detectCodec [x00; x00; x00; x01; x40; x01; x0c; x01; xff; xff; x01; x60]
  = h265 /\
  isKeyFrame [x00; x00; x00; x01; x26; x01; xaf; x08; x40; x21; x00; x5c]
             "hvc1.1.6.L93.B0" = true /\
  snd (session_run decode default_closure
         (session_start configure default_closure
                        "ws://host/api/miot/ws/video_stream" None)
         (map unit_event
              [([x00; x00; x00; x01; x40; x01; x0c; x01; xff; xff; x01; x60], 10);
               ([x00; x00; x00; x01; x26; x01; xaf; x08; x40; x21; x00; x5c], 50)]))
  = [ CallDetectCodec
        [x00; x00; x00; x01; x40; x01; x0c; x01; xff; xff; x01; x60];
      SetAutoCodec "hvc1.1.6.L93.B0";
      CallIsKeyFrame
        [x00; x00; x00; x01; x40; x01; x0c; x01; xff; xff; x01; x60]
        "avc1.42E01E";
      CallDetectCodec
        [x00; x00; x00; x01; x26; x01; xaf; x08; x40; x21; x00; x5c];
      SetAutoCodec "hvc1.1.6.L93.B0";
      CallIsKeyFrame
        [x00; x00; x00; x01; x26; x01; xaf; x08; x40; x21; x00; x5c]
        "avc1.42E01E" ].
Proof. repeat split. Qed.

End Codec.

(* ================================================================== *)
(** ** Closing the transport                                           *)
(* ================================================================== *)

Section Close.

Variable D : Type.

Lemma calls_onPlay_app a b : calls_onPlay (a ++ b) = calls_onPlay a || calls_onPlay b.
Proof. apply existsb_app. Qed.

Lemma onclose_calls_onPlay cl (st : component D) event :
  calls_onPlay (snd (onclose cl st event))
  = negb (String.eqb (reason_of event) "close_by_user") && onPlay cl.
Proof.
  unfold onclose.
  destruct (negb (String.eqb (reason_of event) "close_by_user"));
    cbn [snd andb]; [rewrite calls_onPlay_app |];
    destruct (negb (truthy (error cl))); cbn; try reflexivity;
    now destruct (onPlay cl).
Qed.

(** C7. With an [onPlay] prop given, the close handler calls it if and
    only if the reason of the close event is not ['close_by_user'] (an
    absent reason counts as the empty string). The cleanup of a session
    that holds a transport closes it with code 1000 and that reason, so
    the close event of that close does not make the handler call
    [onPlay]; a close by the peer with any other reason, or none, does. *)
Theorem close_reason_propagation (cl : closure) (st : component D) :
  onPlay cl = true ->
  (forall event,
      calls_onPlay (snd (onclose cl st event)) = true <->
      reason_of event <> "close_by_user"%string) /\
  (forall ws,
      wsRef st = Some ws ->
      local_closes (snd (cleanup st))
      = [ClosedLocally (Some 1000) (Some "close_by_user"%string)] /\
      wsRef (fst (cleanup st)) = None /\
      forall c, In c (local_closes (snd (cleanup st))) ->
                calls_onPlay (snd (onclose cl (fst (cleanup st)) (close_event c)))
                = false) /\
  (forall r,
      r <> Some "close_by_user"%string ->
      calls_onPlay (snd (onclose cl st (close_event (ClosedByPeer r)))) = true).
Proof.
  intros Hon. split; [| split].
  - intros event. rewrite onclose_calls_onPlay, Hon, andb_true_r.
    rewrite negb_true_iff. apply String.eqb_neq.
  - intros ws Hws.
    assert (E : local_closes (snd (cleanup st))
                = [ClosedLocally (Some 1000) (Some "close_by_user"%string)]).
    { unfold cleanup. rewrite Hws. cbn.
      now destruct (decoderRef st). }
    split; [exact E |]. split.
    + unfold cleanup. rewrite Hws. cbn. now destruct (decoderRef st).
    + intros c Hc. rewrite E in Hc. destruct Hc as [<- | []].
      rewrite onclose_calls_onPlay. reflexivity.
  - intros r Hr. rewrite onclose_calls_onPlay, Hon, andb_true_r.
    apply negb_true_iff, String.eqb_neq.
    destruct r as [s |]; cbn; [congruence | discriminate].
Qed.

End Close.

Lemma close_reason_propagation_witness :
  calls_onPlay
    (snd (onclose default_closure
            (session_start sample_configure default_closure
                           "ws://host/api/miot/ws/video_stream" None)
            (close_event (ClosedByPeer None)))) = true /\
  local_closes
    (snd (cleanup (session_start sample_configure default_closure
                                 "ws://host/api/miot/ws/video_stream" None)))
  = [ClosedLocally (Some 1000) (Some "close_by_user"%string)].
Proof.
  destruct (close_reason_propagation nat default_closure
              (session_start sample_configure default_closure
                             "ws://host/api/miot/ws/video_stream" None)
              eq_refl) as (_ & H2 & H3).
  split.
  - apply H3. discriminate.
  - apply (H2 {| ws_url := "ws://host/api/miot/ws/video_stream" |} eq_refl).
Defined.

(* ================================================================== *)
(** ** The cameras being played                                        *)
(* ================================================================== *)

(** A click on a camera that is playing removes it and keeps the others
    in their order. *)
Lemma activate_toggle_off cur item :
  Instant.includes cur (Instant.did item) = true ->
  Instant.activate cur (Some item)
  = filter (fun id => negb (String.eqb id (Instant.did item))) cur.
Proof.
  intros H. unfold Instant.activate, Instant.playStream. now rewrite H.
Qed.

(** A click on a camera that is not playing appends it, whatever the
    number of cameras playing: the value of the last call of the setter
    is the state, and it is built from the state of the render. *)
Lemma activate_new_appends cur item :
  Instant.includes cur (Instant.did item) = false ->
  Instant.activate cur (Some item) = cur ++ [Instant.did item].
Proof.
  intros H. unfold Instant.activate, Instant.playStream, Instant.commit.
  rewrite H. apply last_last.
Qed.

(** C2 does not hold of the code. With four cameras playing, a click on
    a fifth calls the setter with the four minus the oldest and then with
    the four plus the new one; the state is the latter, five cameras, the
    oldest among them. *)
Theorem playStream_fifth_camera_not_evicted :
  Instant.playStream ["cam1"; "cam2"; "cam3"; "cam4"]%string
                     (Some {| Instant.did := "cam5" |})
  = [ ["cam2"; "cam3"; "cam4"];
      ["cam1"; "cam2"; "cam3"; "cam4"; "cam5"] ]%string /\
  Instant.activate ["cam1"; "cam2"; "cam3"; "cam4"]%string
                   (Some {| Instant.did := "cam5" |})
  = ["cam1"; "cam2"; "cam3"; "cam4"; "cam5"]%string.
Proof. split; reflexivity. Qed.

(* ================================================================== *)
(** ** Further properties of the bitstream classifier                  *)
(* ================================================================== *)

Lemma find_seq_some (f : nat -> bool) : forall n a k,
  find f (seq a n) = Some k ->
  (a <= k < a + n)%nat /\ f k = true /\
  forall j, (a <= j < k)%nat -> f j = false.
Proof.
  induction n as [| n IH]; intros a k H; [discriminate |].
  cbn [seq find] in H. destruct (f a) eqn:Fa.
  - inversion H; subst. repeat split; try lia. assumption.
  - apply IH in H as (Hk & Fk & Hb). repeat split; try lia; try assumption.
    intros j Hj. destruct (Nat.eq_dec j a) as [-> | Hne]; [assumption |].
    apply Hb. lia.
Qed.

Lemma find_seq_none (f : nat -> bool) : forall n a,
  find f (seq a n) = None ->
  forall j, (a <= j < a + n)%nat -> f j = false.
Proof.
  induction n as [| n IH]; intros a H j Hj; [lia |].
  cbn [seq find] in H. destruct (f a) eqn:Fa; [discriminate |].
  destruct (Nat.eq_dec j a) as [-> | Hne]; [assumption |].
  apply (IH (S a) H). lia.
Qed.

Lemma find_seq_first (f : nat -> bool) : forall n a k,
  (a <= k < a + n)%nat -> f k = true ->
  (forall j, (a <= j < k)%nat -> f j = false) ->
  find f (seq a n) = Some k.
Proof.
  induction n as [| n IH]; intros a k Hk Fk Hb; [lia |].
  cbn [seq find]. destruct (Nat.eq_dec a k) as [-> | Hne].
  - now rewrite Fk.
  - rewrite (Hb a) by lia. apply IH; try lia; try assumption.
    intros j Hj. apply Hb. lia.
Qed.

Lemma detect_loop_spec data : forall f i,
  (i <= List.length data)%nat -> (List.length data < f + i)%nat ->
  fst (detect_loop f data i) =
  Some match find (classified_at data)
                  (seq i (Z.to_nat (Z.of_nat (List.length data) - 6) - i)) with
       | Some k => if is_h264_param_or_idr (nal_header data k)
                   then h264 else h265
       | None => unknown
       end.
Proof.
  induction f as [| f IH]; intros i Hi Hf; [lia |].
  rewrite detect_loop_fst.
  destruct (Z.ltb_spec (Z.of_nat i) (Z.of_nat (List.length data) - 6)) as [G | G].
  - rewrite seq_cons_lt by lia. cbn [find]. unfold classified_at at 1.
    rewrite (IH (S i)) by lia.
    destruct (start_code_at data i); [| reflexivity].
    destruct (is_h264_param_or_idr (nal_header data i)) eqn:E4;
      cbn [andb orb]; [now rewrite E4 |].
    destruct (is_h265_param_or_idr (nal_header data i));
      [now rewrite E4 | reflexivity].
  - replace (Z.to_nat (Z.of_nat (List.length data) - 6) - i)%nat with 0%nat
      by lia.
    reflexivity.
Qed.

Lemma detectCodec_is_detect_spec (data : Uint8Array) :
  detectCodec data = detect_spec data.
Proof.
  apply detectCodec_fst. rewrite detect_loop_spec by lia.
  unfold detect_spec. now rewrite Nat.sub_0_r.
Qed.

(** X1. [detectCodec] answers from the first start code below
    [length - 6] whose header is of a listed type: ['h264'] when the low
    five bits of that header are 5, 7 or 8, ['h265'] otherwise, and
    ['unknown'] when there is no such start code. *)
Theorem detectCodec_first_classified_header (data : Uint8Array) :
  detectCodec data = detect_spec data.
Proof. exact (detectCodec_is_detect_spec data). Qed.

(** X2. Whatever the buffer and the codec string, every index read by
    [detectCodec] and by [isKeyFrame] is an index of the buffer: no read
    yields [undefined]. *)
Theorem classifier_reads_in_bounds (data : Uint8Array) (codec : string) :
  Forall (fun j => (j < List.length data)%nat) (detectCodec_reads data) /\
  Forall (fun j => (j < List.length data)%nat) (isKeyFrame_reads data codec).
Proof.
  split; apply Forall_forall; intros j Hj.
  - eapply detect_loop_reads. exact Hj.
  - unfold isKeyFrame_reads, isKeyFrame_rd in Hj.
    destruct (is_h264_codec codec).
    + eapply key_h264_loop_reads. exact Hj.
    + destruct (is_h265_codec codec).
      * eapply key_h265_loop_reads. exact Hj.
      * destruct Hj.
Qed.

Lemma byte_is_app data more j b :
  (j < List.length data)%nat -> byte_is (data ++ more) j b = byte_is data j b.
Proof. intros H. unfold byte_is. now rewrite nth_error_app1. Qed.

Lemma start_code_at_app data more j :
  (j + 3 < List.length data)%nat ->
  start_code_at (data ++ more) j = start_code_at data j.
Proof.
  intros H. unfold start_code_at. now rewrite !byte_is_app by lia.
Qed.

Lemma nal_header_app data more j :
  (j + 4 < List.length data)%nat ->
  nal_header (data ++ more) j = nal_header data j.
Proof.
  intros H. unfold nal_header. rewrite byte_is_app by lia.
  destruct (byte_is data (j + 2) x01); now rewrite nth_error_app1 by lia.
Qed.

Lemma classified_at_app data more j :
  (j + 4 < List.length data)%nat ->
  classified_at (data ++ more) j = classified_at data j.
Proof.
  intros H. unfold classified_at.
  now rewrite start_code_at_app, nal_header_app by lia.
Qed.

Lemma isKeyFrame_h264_spec data codec :
  is_h264_codec codec = true -> isKeyFrame data codec = key_h264_spec data.
Proof.
  intros H. apply isKeyFrame_h264_fst; [assumption |].
  rewrite key_h264_loop_spec by lia.
  unfold key_h264_spec. now rewrite Nat.sub_0_r.
Qed.

Lemma isKeyFrame_h265_spec data codec :
  is_h265_codec codec = true -> isKeyFrame data codec = key_h265_spec data.
Proof.
  intros H. pose proof (h265_codec_not_h264 codec H) as H4.
  apply isKeyFrame_h265_fst; try assumption.
  rewrite key_h265_loop_spec by lia.
  unfold key_h265_spec. now rewrite Nat.sub_0_r.
Qed.

Lemma isKeyFrame_other data codec :
  is_h264_codec codec = false -> is_h265_codec codec = false ->
  isKeyFrame data codec = true.
Proof. intros H4 H5. unfold isKeyFrame, isKeyFrame_rd. now rewrite H4, H5. Qed.

(** X3. Bytes appended to a buffer do not change a codec already
    detected: when [detectCodec] answers ['h264'] or ['h265'] on a buffer
    it gives the same answer on every extension of that buffer. *)
Theorem detectCodec_append_stable (data more : Uint8Array) :
  detectCodec data <> unknown ->
  detectCodec (data ++ more) = detectCodec data.
Proof.
  rewrite !detectCodec_is_detect_spec. unfold detect_spec. intros H.
  destruct (find (classified_at data) _) as [k |] eqn:F; [| congruence].
  apply find_seq_some in F as (Hk & Ck & Hb).
  rewrite (find_seq_first (classified_at (data ++ more)) _ 0 k).
  - now rewrite nal_header_app by lia.
  - rewrite length_app. lia.
  - now rewrite classified_at_app by lia.
  - intros j Hj. rewrite classified_at_app by lia. apply Hb. lia.
Qed.

Lemma detectCodec_append_stable_witness :
  detectCodec ([x00; x00; x00; x01; x67; x42; xe0; x1e; xda; x02]
               ++ [x00; x00; x00; x01; x40; x01; x0c])
  = detectCodec [x00; x00; x00; x01; x67; x42; xe0; x1e; xda; x02].
Proof.
  apply (detectCodec_append_stable
           [x00; x00; x00; x01; x67; x42; xe0; x1e; xda; x02]
           [x00; x00; x00; x01; x40; x01; x0c]).
  discriminate.
Defined.

(** X4. Bytes appended to a buffer do not turn a key frame into a delta
    frame: when [isKeyFrame] answers true on a buffer, it answers true on
    every extension of that buffer, for every codec string. *)
Theorem isKeyFrame_append_stable (data more : Uint8Array) (codec : string) :
  isKeyFrame data codec = true ->
  isKeyFrame (data ++ more) codec = true.
Proof.
  destruct (is_h264_codec codec) eqn:H4;
    [| destruct (is_h265_codec codec) eqn:H5].
  - rewrite !isKeyFrame_h264_spec by assumption. unfold key_h264_spec.
    destruct (find (start_code_at data) _) as [k |] eqn:F; [| discriminate].
    apply find_seq_some in F as (Hk & Ck & Hb). intros Ht.
    rewrite (find_seq_first (start_code_at (data ++ more)) _ 0 k).
    + now rewrite nal_header_app by lia.
    + rewrite length_app. lia.
    + now rewrite start_code_at_app by lia.
    + intros j Hj. rewrite start_code_at_app by lia. apply Hb. lia.
  - rewrite !isKeyFrame_h265_spec by assumption. unfold key_h265_spec.
    intros H. apply existsb_exists in H as (k & Hk & Ck).
    apply in_seq in Hk. apply existsb_exists. exists k. split.
    + apply in_seq. rewrite length_app. lia.
    + now rewrite start_code_at_app, nal_header_app by lia.
  - intros _. now apply isKeyFrame_other.
Qed.

Lemma isKeyFrame_append_stable_witness :
  isKeyFrame ([x00; x00; x01; x65; x88; x84] ++ [x00; x00; x01; x41; x9a])
             "avc1.42E01E" = true.
Proof.
  apply (isKeyFrame_append_stable [x00; x00; x01; x65; x88; x84]
                                  [x00; x00; x01; x41; x9a] "avc1.42E01E").
  reflexivity.
Defined.

(** X5. The two classifiers do not contradict each other on an H.264 key
    frame: a buffer that [isKeyFrame] accepts with an H.264 codec string
    is never answered ['h265'] by [detectCodec]. *)
Theorem h264_key_frame_not_detected_h265 (data : Uint8Array) (codec : string) :
  is_h264_codec codec = true ->
  isKeyFrame data codec = true ->
  detectCodec data <> h265.
Proof.
  intros H4. rewrite isKeyFrame_h264_spec by assumption.
  rewrite detectCodec_is_detect_spec. unfold key_h264_spec, detect_spec.
  destruct (find (start_code_at data) _) as [i |] eqn:Fi; [| discriminate].
  apply find_seq_some in Fi as (Hi & Si & Bi). intros Ht.
  apply Z.eqb_eq in Ht.
  assert (Ci : is_h264_param_or_idr (nal_header data i) = true)
    by (unfold is_h264_param_or_idr; now rewrite Ht).
  destruct (find (classified_at data) _) as [k |] eqn:Fk; [| discriminate].
  apply find_seq_some in Fk as (Hk & Ck & Bk).
  destruct (is_h264_param_or_idr (nal_header data k)) eqn:C4; [discriminate |].
  exfalso.
  assert (Sk : start_code_at data k = true)
    by (unfold classified_at in Ck; now apply andb_prop in Ck).
  destruct (Nat.lt_trichotomy i k) as [L | [E | L]].
  - assert (classified_at data i = false) by (apply Bk; lia).
    unfold classified_at in *. rewrite Si, Ci in *. discriminate.
  - subst. congruence.
  - rewrite Bi in Sk by lia. discriminate.
Qed.

Lemma h264_key_frame_not_detected_h265_witness :
  detectCodec [x00; x00; x00; x01; x65; x88; x84; x00; x33; xff] <> h265.
Proof.
  apply (h264_key_frame_not_detected_h265
           [x00; x00; x00; x01; x65; x88; x84; x00; x33; xff] "avc1.42E01E");
    reflexivity.
Defined.

(** X6. A buffer too short for a scan to begin is never a key frame in
    the two families: at most 4 bytes with an H.264 codec string, at most
    6 bytes with an H.265 one; with any other codec string even the empty
    buffer is a key frame. *)
Theorem isKeyFrame_short_buffer (data : Uint8Array) (codec : string) :
  (is_h264_codec codec = true -> (List.length data <= 4)%nat ->
   isKeyFrame data codec = false) /\
  (is_h265_codec codec = true -> (List.length data <= 6)%nat ->
   isKeyFrame data codec = false) /\
  (is_h264_codec codec = false -> is_h265_codec codec = false ->
   isKeyFrame [] codec = true).
Proof.
  split; [| split].
  - intros H4 Hl. rewrite isKeyFrame_h264_spec by assumption.
    unfold key_h264_spec.
    replace (Z.to_nat (Z.of_nat (List.length data) - 4)) with 0%nat by lia.
    reflexivity.
  - intros H5 Hl. rewrite isKeyFrame_h265_spec by assumption.
    unfold key_h265_spec.
    replace (Z.to_nat (Z.of_nat (List.length data) - 6)) with 0%nat by lia.
    reflexivity.
  - intros H4 H5. now apply isKeyFrame_other.
Qed.

Lemma isKeyFrame_short_buffer_witness :
  isKeyFrame [x00; x00; x01; x65] "avc1.42E01E" = false /\
  isKeyFrame [x00; x00; x01; x26; x01; xaf] "hev1.1.6.L93.B0" = false /\
  isKeyFrame [] "vp09.00.10.08" = true.
Proof.
  destruct (isKeyFrame_short_buffer [x00; x00; x01; x65] "avc1.42E01E")
    as (H1 & _).
  destruct (isKeyFrame_short_buffer [x00; x00; x01; x26; x01; xaf]
                                    "hev1.1.6.L93.B0") as (_ & H2 & _).
  destruct (isKeyFrame_short_buffer [] "vp09.00.10.08") as (_ & _ & H3).
  split; [| split].
  - apply H1; [reflexivity | simpl; lia].
  - apply H2; [reflexivity | simpl; lia].
  - apply H3; reflexivity.
Defined.

(* ================================================================== *)
(** ** Further properties of the handlers of a session                 *)
(* ================================================================== *)

Section Session.

Variable D : Type.
Variable configure : string -> D.
Variable decode : D -> EncodedVideoChunk -> D * bool.

Lemma detect_stage_autoCodec cl (st : component D) uint8 :
  state_autoCodec (fst (detect_stage cl st uint8))
  = if truthy (autoCodec cl) then state_autoCodec st
    else match profile_of (detectCodec uint8) with
         | Some p => Some p
         | None => state_autoCodec st
         end.
Proof.
  unfold detect_stage.
  destruct (truthy (autoCodec cl)); [reflexivity |]. cbn [negb].
  now destruct (detectCodec uint8).
Qed.

Lemma onmessage_autoCodec cl (st : component D) u :
  state_autoCodec (fst (onmessage decode cl st (unit_event u)))
  = state_autoCodec (fst (detect_stage cl st (fst u))).
Proof.
  unfold onmessage, unit_event. cbn [msg_data msg_now].
  destruct (decoderRef (fst (detect_stage cl st (fst u)))); [| reflexivity].
  repeat match goal with
         | |- context [if ?c then _ else _] => destruct c
         end; reflexivity.
Qed.

(** What one access unit leaves unchanged, whether it is dropped or
    submitted. *)
Lemma onmessage_invariant cl (st : component D) dec u :
  decoderRef st = Some dec ->
  wsRef (fst (onmessage decode cl st (unit_event u))) = wsRef st /\
  closes (snd (onmessage decode cl st (unit_event u))) = false /\
  uncaught (snd (onmessage decode cl st (unit_event u))) = false /\
  (List.length (errors_set (snd (onmessage decode cl st (unit_event u))))
   <= List.length (decoded (snd (onmessage decode cl st (unit_event u)))))%nat /\
  Forall (eq "instant.deviceList.deviceDecodeFailed"%string)
         (errors_set (snd (onmessage decode cl st (unit_event u)))) /\
  exists dec', decoderRef (fst (onmessage decode cl st (unit_event u)))
               = Some dec' /\
               (gate_closed dec = false -> gate_closed dec' = false).
Proof.
  intros Hdec.
  destruct (gate_closed dec) eqn:G; [destruct (classify cl u) eqn:K |].
  - destruct (onmessage_submitted D decode cl st dec u Hdec (or_intror K))
      as (E & Ec & Eu & Ew & _ & Ee & dec' & Hdec' & Hg').
    rewrite E, Ee. repeat split; try assumption.
    + destruct (snd (decode _ _)); simpl; lia.
    + destruct (snd (decode _ _)); repeat constructor.
    + exists dec'. split; [assumption | discriminate].
  - destruct (onmessage_dropped D decode cl st dec u Hdec G K)
      as (E & Ee & Ec & Eu & _ & Ew & dec' & Hdec' & Hg').
    rewrite E, Ee. repeat split; try assumption; try constructor.
    exists dec'. split; [assumption | discriminate].
  - destruct (onmessage_submitted D decode cl st dec u Hdec (or_introl G))
      as (E & Ec & Eu & Ew & _ & Ee & dec' & Hdec' & Hg').
    rewrite E, Ee. repeat split; try assumption.
    + destruct (snd (decode _ _)); simpl; lia.
    + destruct (snd (decode _ _)); repeat constructor.
    + exists dec'. split; [assumption | now intros _].
Qed.

(** X7. Handling the access units of a session never closes the
    transport or the decoder, lets no exception out, leaves [wsRef] as it
    was and a decoder in [decoderRef]; the only error it sets is the
    decode failure, at most once per submitted unit; and a gate that is
    open stays open. *)
Theorem session_run_invariant (cl : closure) :
  forall (units : list access_unit) (st : component D) (dec : VideoDecoder D),
  decoderRef st = Some dec ->
  wsRef (fst (session_run decode cl st (map unit_event units))) = wsRef st /\
  closes (snd (session_run decode cl st (map unit_event units))) = false /\
  uncaught (snd (session_run decode cl st (map unit_event units))) = false /\
  (List.length (errors_set (snd (session_run decode cl st (map unit_event units))))
   <= List.length (decoded (snd (session_run decode cl st (map unit_event units)))))%nat /\
  Forall (eq "instant.deviceList.deviceDecodeFailed"%string)
         (errors_set (snd (session_run decode cl st (map unit_event units)))) /\
  exists dec', decoderRef (fst (session_run decode cl st (map unit_event units)))
               = Some dec' /\
               (gate_closed dec = false -> gate_closed dec' = false).
Proof.
  induction units as [| u units IH]; intros st dec Hdec.
  - cbn. repeat split; try constructor. now exists dec.
  - cbn [map session_run fst snd].
    destruct (onmessage_invariant cl st dec u Hdec)
      as (W & C & U & L & F & dec1 & Hdec1 & G1).
    destruct (IH _ dec1 Hdec1) as (W' & C' & U' & L' & F' & dec2 & Hdec2 & G2).
    rewrite closes_app, uncaught_app, errors_set_app, decoded_app, !length_app.
    rewrite W', W, C, C', U, U'. repeat split; try lia.
    + apply Forall_app. now split.
    + exists dec2. split; [assumption |]. intros G. apply G2, G1, G.
Qed.

Lemma from_first_key_head cl : forall units u rest,
  from_first_key cl units = u :: rest -> classify cl u = key.
Proof.
  induction units as [| v units IH]; intros u rest H; [discriminate |].
  cbn [from_first_key] in H. destruct (classify cl v) eqn:K.
  - now inversion H; subst.
  - eapply IH. exact H.
Qed.

(** X8. The decoder of a session whose gate is closed never receives a
    delta chunk first: whatever the access units, the first chunk
    submitted, if any, is of type key. *)
Theorem first_submitted_chunk_is_key
        (cl : closure) (st : component D) (dec : VideoDecoder D)
        (units : list access_unit) (c : EncodedVideoChunk)
        (rest : list EncodedVideoChunk) :
  decoderRef st = Some dec ->
  gate_closed dec = true ->
  decoded (snd (session_run decode cl st (map unit_event units))) = c :: rest ->
  chunk_type c = key.
Proof.
  intros Hdec Hg. rewrite (session_run_closed D decode cl units st dec Hdec Hg).
  destruct (from_first_key cl units) as [| u us] eqn:E; [discriminate |].
  cbn [map]. intros H. inversion H; subst.
  cbn [unit_chunk chunk_type]. eapply from_first_key_head. exact E.
Qed.

(** X9. Messages that are not binary are ignored: a session handles a
    list of messages exactly as it handles the binary ones among them. *)
Theorem session_run_ignores_text (cl : closure) :
  forall (evs : list MessageEvent) (st : component D),
  session_run decode cl st evs
  = session_run decode cl st (filter is_binary evs).
Proof.
  induction evs as [| e evs IH]; intros st; [reflexivity |].
  cbn [filter]. unfold is_binary at 1.
  destruct e as [[bytes | s] now]; cbn [msg_data].
  - cbn [session_run]. now rewrite IH.
  - cbn [session_run]. unfold onmessage at 1 2 3. cbn [msg_data fst snd app].
    rewrite <- IH. now destruct (session_run decode cl st evs).
Qed.

(** X10. In a session whose handlers were created after a codec was
    detected ([autoCodec] is a non-empty string), [detectCodec] is never
    called, the [autoCodec] state is never set again, and every access
    unit is classified with that codec string, whatever the [codec]
    prop. *)
Theorem session_after_detection (cl : closure) (s : string) :
  autoCodec cl = Some s -> s <> EmptyString ->
  forall (units : list access_unit) (st : component D) (dec : VideoDecoder D),
  decoderRef st = Some dec ->
  detect_calls (snd (session_run decode cl st (map unit_event units))) = [] /\
  key_calls (snd (session_run decode cl st (map unit_event units)))
  = map (fun u => (fst u, s)) units /\
  state_autoCodec (fst (session_run decode cl st (map unit_event units)))
  = state_autoCodec st.
Proof.
  intros Hs Hne.
  assert (T : truthy (autoCodec cl) = true)
    by (rewrite Hs; destruct s; [congruence | reflexivity]).
  assert (U : useCodec cl = s)
    by (unfold useCodec, or_else; rewrite Hs, <- Hs, T; reflexivity).
  induction units as [| u units IH]; intros st dec Hdec; [now repeat split |].
  cbn [map session_run fst snd].
  rewrite detect_calls_app, key_calls_app.
  destruct (onmessage_calls D decode cl st dec u Hdec) as (C1 & C2).
  destruct (onmessage_keeps_decoder D decode cl st dec u Hdec) as (dec' & Hdec').
  destruct (IH _ dec' Hdec') as (I1 & I2 & I3).
  rewrite C1, C2, I1, I2, I3, T, U, onmessage_autoCodec, detect_stage_autoCodec, T.
  now repeat split.
Qed.

(** X11. In a session whose handlers were created before any detection,
    the [autoCodec] state is set again at every access unit that is
    detected as something: after the session it holds the profile of the
    last such unit, not of the first. *)
Theorem autoCodec_state_last_detected (cl : closure) :
  truthy (autoCodec cl) = false ->
  forall (units : list access_unit) (st : component D) (dec : VideoDecoder D),
  decoderRef st = Some dec ->
  state_autoCodec (fst (session_run decode cl st (map unit_event units)))
  = last_detected (state_autoCodec st) units.
Proof.
  intros T.
  induction units as [| u units IH]; intros st dec Hdec; [reflexivity |].
  cbn [map session_run fst].
  destruct (onmessage_keeps_decoder D decode cl st dec u Hdec) as (dec' & Hdec').
  rewrite (IH _ dec' Hdec'), onmessage_autoCodec, detect_stage_autoCodec, T.
  reflexivity.
Qed.

Lemma cleanup_refs (st : component D) :
  wsRef (fst (cleanup st)) = None /\ decoderRef (fst (cleanup st)) = None.
Proof.
  destruct st as [[w |] [d |] a e]; now split.
Qed.


(** X13. A binary message handled after the cleanup finds no decoder:
    reading the gate flag of the cleared [decoderRef] throws a TypeError
    out of the handler, and nothing is submitted or closed. *)
Theorem onmessage_after_cleanup
        (cl : closure) (st : component D) (u : access_unit) :
  uncaught (snd (onmessage decode cl (fst (cleanup st)) (unit_event u))) = true /\
  decoded (snd (onmessage decode cl (fst (cleanup st)) (unit_event u))) = [] /\
  errors_set (snd (onmessage decode cl (fst (cleanup st)) (unit_event u))) = [] /\
  closes (snd (onmessage decode cl (fst (cleanup st)) (unit_event u))) = false /\
  decoderRef (fst (onmessage decode cl (fst (cleanup st)) (unit_event u))) = None.
Proof.
  destruct (cleanup_refs st) as (_ & Dc).
  destruct (detect_stage_frame D cl (fst (cleanup st)) (fst u))
    as (F1 & _ & _ & F4 & F5 & F6 & F7).
  unfold onmessage, unit_event. cbn [msg_data msg_now].
  rewrite F1, Dc. cbn [fst snd].
  rewrite uncaught_app, decoded_app, errors_set_app, closes_app, F4, F5, F6, F7, F1.
  now repeat split.
Qed.

End Session.

(* ================================================================== *)
(** ** Properties of [init], of the error handler and of the frames    *)
(* ================================================================== *)

Section EffectProperties.

Variable D : Type.
Variable configure : string -> D.
Variable encodeURIComponent : string -> string.

(** X14. [init] goes on to open a transport exactly when there is a
    camera, the support is known and given and the browser is not
    Firefox. Otherwise it leaves both refs alone, closes and opens
    nothing; with no camera or an unknown support it does nothing at all,
    and else it sets an error and calls [onPlay] once when given. *)
Theorem init_refusal (env : environment) (cl : closure) (st : component D) :
  snd (init_before_sleep env cl st) = init_goes_on env /\
  (init_goes_on env = false ->
   wsRef (fst (fst (init_before_sleep env cl st))) = wsRef st /\
   decoderRef (fst (fst (init_before_sleep env cl st))) = decoderRef st /\
   closes (effects_of (snd (fst (init_before_sleep env cl st)))) = false /\
   opened (snd (fst (init_before_sleep env cl st))) = []) /\
  (truthy (cameraId env) = false \/ isSupported env = None ->
   fst (init_before_sleep env cl st) = (st, [])) /\
  (truthy (cameraId env) = true -> isSupported env <> None ->
   init_goes_on env = false ->
   state_error (fst (fst (init_before_sleep env cl st)))
   = Some (if isFirefox env then "instant.deviceList.browserNotSupport"
           else "instant.deviceList.deviceNotSupport")%string /\
   count_onPlay (effects_of (snd (fst (init_before_sleep env cl st))))
   = (if onPlay cl then 1 else 0)%nat).
Proof.
  unfold init_before_sleep, init_goes_on.
  destruct (truthy (cameraId env)), (isSupported env) as [[|] |],
    (isFirefox env); cbn [negb orb andb fst snd];
    (split; [reflexivity |]);
    (split; [intros H; try discriminate H;
             repeat split; try reflexivity;
             now destruct (onPlay cl) |]);
    (split; [intros [H | H]; try discriminate H; reflexivity |]);
    intros H1 H2 H3; try discriminate; try congruence;
    split; try reflexivity; now destruct (onPlay cl).
Qed.

Lemma effects_of_app a b : effects_of (a ++ b) = effects_of a ++ effects_of b.
Proof. apply flat_map_app. Qed.

Lemma opened_app a b : opened (a ++ b) = opened a ++ opened b.
Proof. apply flat_map_app. Qed.

Lemma local_closes_app a b :
  local_closes (a ++ b) = local_closes a ++ local_closes b.
Proof. apply flat_map_app. Qed.

Lemma init_replaces_handles_aux
      (env : environment) (cl : closure) (st : component D) :
  init_goes_on env = true ->
  local_closes (effects_of (snd (fst (init_before_sleep env cl st))))
  = match wsRef st with
    | Some _ => [ClosedLocally None None]
    | None => []
    end /\
  wsRef (fst (fst (init_before_sleep env cl st))) = None /\
  decoderRef (fst (fst (init_before_sleep env cl st))) = None /\
  snd (init_before_sleep env cl st) = true.
Proof.
  unfold init_goes_on, init_before_sleep. intros H.
  apply andb_prop in H as [H H3]. apply andb_prop in H as [H1 H2].
  rewrite H1. apply negb_true_iff in H3. rewrite H3.
  destruct (isSupported env) as [[|] |]; try discriminate.
  cbn [negb orb fst snd].
  destruct st as [[w |] [d |] a e]; repeat split.
Qed.

(** X15. When [init] goes on, it first closes whatever the refs still
    hold, each handle once and the transport with no code and no reason,
    and after the pause it opens one transport and creates one decoder,
    configured with the [codec] prop whatever [autoCodec] is; the
    component is then the one a session starts from: both refs set, the
    gate flag not yet there, no error. *)
Theorem init_replaces_handles
        (env : environment) (cl : closure) (st : component D) :
  init_goes_on env = true ->
  local_closes (effects_of (snd (fst (init_before_sleep env cl st))))
  = match wsRef st with
    | Some _ => [ClosedLocally None None]
    | None => []
    end /\
  count_occ_decoder_close (effects_of (snd (fst (init_before_sleep env cl st))))
  = match decoderRef st with Some _ => 1%nat | None => 0%nat end /\
  wsRef (fst (fst (init_before_sleep env cl st))) = None /\
  decoderRef (fst (fst (init_before_sleep env cl st))) = None /\
  opened (snd (fst (init_before_sleep env cl st))) = [] /\
  opened (snd (init_after_sleep configure encodeURIComponent env cl
                 (fst (fst (init_before_sleep env cl st)))))
  = [wsUrl encodeURIComponent env] /\
  decoders_made (snd (init_after_sleep configure encodeURIComponent env cl
                        (fst (fst (init_before_sleep env cl st)))))
  = [codec cl] /\
  fst (init_after_sleep configure encodeURIComponent env cl
         (fst (fst (init_before_sleep env cl st))))
  = session_start configure cl (wsUrl encodeURIComponent env)
                  (state_autoCodec st).
Proof.
  unfold init_goes_on, init_before_sleep. intros H.
  apply andb_prop in H as [H H3]. apply andb_prop in H as [H1 H2].
  rewrite H1. apply negb_true_iff in H3. rewrite H3.
  destruct (isSupported env) as [[|] |]; try discriminate.
  cbn [negb orb fst snd].
  destruct st as [[w |] [d |] a e]; repeat split.
Qed.

(** X16. The transport that [init] closes because a ref still held it is
    closed without a reason, so the close handler of the session it
    belonged to calls [onPlay] when given, whereas the close the cleanup
    makes never does. *)
Theorem init_close_calls_onPlay
        (env : environment) (cl old : closure) (st st' : component D)
        (ws : WebSocket) :
  init_goes_on env = true ->
  wsRef st = Some ws ->
  (forall c,
      In c (local_closes (effects_of (snd (fst (init_before_sleep env cl st))))) ->
      calls_onPlay (snd (onclose old st' (close_event c))) = onPlay old) /\
  (forall c,
      In c (local_closes (snd (cleanup st))) ->
      calls_onPlay (snd (onclose old st' (close_event c))) = false).
Proof.
  intros Hgo Hws.
  destruct (init_replaces_handles_aux env cl st Hgo) as (E & _).
  rewrite Hws in E. split; intros c Hc.
  - rewrite E in Hc. destruct Hc as [<- | []].
    rewrite onclose_calls_onPlay. reflexivity.
  - assert (E' : local_closes (snd (cleanup st))
                 = [ClosedLocally (Some 1000) (Some "close_by_user"%string)])
      by (destruct st as [[w |] [d |] a e]; try discriminate; reflexivity).
    rewrite E' in Hc. destruct Hc as [<- | []].
    rewrite onclose_calls_onPlay. reflexivity.
Qed.

(** X17. A cleanup that runs during the pause of [init] finds both refs
    empty and closes nothing; [init] then goes on after the pause and
    stores a new transport and a new decoder in the refs, which that
    cleanup has not closed. *)
Theorem cleanup_during_pause
        (env : environment) (cl : closure) (st : component D) :
  init_goes_on env = true ->
  snd (cleanup (fst (fst (init_before_sleep env cl st)))) = [] /\
  wsRef (fst (init_after_sleep configure encodeURIComponent env cl
                (fst (cleanup (fst (fst (init_before_sleep env cl st)))))))
  = Some {| ws_url := wsUrl encodeURIComponent env |} /\
  decoderRef (fst (init_after_sleep configure encodeURIComponent env cl
                     (fst (cleanup (fst (fst (init_before_sleep env cl st)))))))
  = Some {| dec_internal := configure (codec cl); _waitForKeyFrame := None |}.
Proof.
  intros Hgo.
  destruct (init_replaces_handles_aux env cl st Hgo) as (_ & W & Dc & _).
  destruct (fst (fst (init_before_sleep env cl st))) as [w d a e].
  cbn in W, Dc. subst. repeat split.
Qed.

(** X18. When the effect runs again during the pause of its previous run
    (cleanup of the first run, then [init] of the second, both before the
    first pause ends), the two runs each open a transport and no [close]
    is called on either: the first transport is left open and is no
    longer in [wsRef], which holds the second. *)
Theorem rerun_during_pause
        (envA envB : environment) (clA clB : closure) (st : component D) :
  init_goes_on envA = true -> init_goes_on envB = true ->
  wsRef st = None -> decoderRef st = None ->
  let s1 := fst (fst (init_before_sleep envA clA st)) in
  let a1 := snd (fst (init_before_sleep envA clA st)) in
  let s2 := fst (cleanup s1) in
  let a2 := map Eff (snd (cleanup s1)) in
  let s3 := fst (fst (init_before_sleep envB clB s2)) in
  let a3 := snd (fst (init_before_sleep envB clB s2)) in
  let s4 := fst (init_after_sleep configure encodeURIComponent envA clA s3) in
  let a4 := snd (init_after_sleep configure encodeURIComponent envA clA s3) in
  let s5 := fst (init_after_sleep configure encodeURIComponent envB clB s4) in
  let a5 := snd (init_after_sleep configure encodeURIComponent envB clB s4) in
  opened (a1 ++ a2 ++ a3 ++ a4 ++ a5)
  = [wsUrl encodeURIComponent envA; wsUrl encodeURIComponent envB] /\
  closes (effects_of (a1 ++ a2 ++ a3 ++ a4 ++ a5)) = false /\
  wsRef s5 = Some {| ws_url := wsUrl encodeURIComponent envB |}.
Proof.
  intros HA HB W Dc.
  destruct st as [w d a e]. cbn in W, Dc. subst.
  unfold init_goes_on in HA, HB.
  apply andb_prop in HA as [HA HA3]. apply andb_prop in HA as [HA1 HA2].
  apply andb_prop in HB as [HB HB3]. apply andb_prop in HB as [HB1 HB2].
  apply negb_true_iff in HA3, HB3.
  unfold init_before_sleep. rewrite HA1, HA3, HB1, HB3.
  destruct (isSupported envA) as [[|] |]; try discriminate.
  destruct (isSupported envB) as [[|] |]; try discriminate.
  repeat split.
Qed.

(** X19. A transport error followed by the close of the transport: the
    error handler closes the transport without a reason and calls
    [onPlay]; the close handler that follows calls [onPlay] a second
    time, and, reading the error state of the render that ran the effect
    (none then), replaces the connect-failed error by the
    connect-closed one. *)
Theorem transport_error_then_close
        (cl : closure) (st : component D) (ws : WebSocket) :
  wsRef st = Some ws -> onPlay cl = true -> truthy (error cl) = false ->
  state_error (fst (onerror cl st))
  = Some "instant.deviceList.deviceConnectFailed"%string /\
  local_closes (effects_of (snd (onerror cl st))) = [ClosedLocally None None] /\
  forall c,
    In c (local_closes (effects_of (snd (onerror cl st)))) ->
    count_onPlay (effects_of (snd (onerror cl st))
                  ++ snd (onclose cl (fst (onerror cl st)) (close_event c)))
    = 2%nat /\
    state_error (fst (onclose cl (fst (onerror cl st)) (close_event c)))
    = Some "instant.deviceList.deviceConnectClosed"%string.
Proof.
  intros Hws Hon Herr.
  assert (E : local_closes (effects_of (snd (onerror cl st)))
              = [ClosedLocally None None])
    by (unfold onerror; rewrite Hws, Hon; reflexivity).
  split; [reflexivity |]. split; [exact E |].
  intros c Hc. rewrite E in Hc. destruct Hc as [<- | []].
  unfold onerror, onclose. rewrite Hws, Hon, Herr. split; reflexivity.
Qed.

End EffectProperties.

Lemma last_cons_default {A} : forall (l : list A) (g d d' : A),
  last (g :: l) d = last (g :: l) d'.
Proof.
  induction l as [| h l IH]; intros g d d'; [reflexivity |].
  change (last (h :: l) d = last (h :: l) d'). apply IH.
Qed.

(** One bitmap: the frame is drawn and closed, and the canvas takes its
    size. *)
Lemma on_bitmap_frame has s f :
  frames_drawn (snd (on_bitmap has s f)) = [frame_id f] /\
  frames_closed (snd (on_bitmap has s f)) = [frame_id f] /\
  canvas_size (fst (on_bitmap has s f)) = Some (codedWidth f, codedHeight f) /\
  ready (fst (on_bitmap has s f)) = true /\
  shows (snd (on_bitmap has s f)) = (if ready s then [] else [true]) /\
  loadings (snd (on_bitmap has s f)) = (if ready s then [] else [false]) /\
  show (fst (on_bitmap has s f)) = (if ready s then show s else true) /\
  loading (fst (on_bitmap has s f)) = (if ready s then loading s else false).
Proof.
  unfold on_bitmap. destruct (ready s) eqn:R; cbn [negb fst snd].
  - now repeat split.
  - destruct has; now repeat split.
Qed.

Lemma sink_run_ready has : forall frames s,
  ready s = true ->
  frames_drawn (snd (sink_run has s frames)) = map frame_id frames /\
  frames_closed (snd (sink_run has s frames)) = map frame_id frames /\
  shows (snd (sink_run has s frames)) = [] /\
  loadings (snd (sink_run has s frames)) = [] /\
  ready (fst (sink_run has s frames)) = true /\
  show (fst (sink_run has s frames)) = show s /\
  loading (fst (sink_run has s frames)) = loading s /\
  canvas_size (fst (sink_run has s frames))
  = match frames with
    | [] => canvas_size s
    | _ => Some (codedWidth (last frames {| frame_id := 0; codedWidth := 0;
                                            codedHeight := 0 |}),
                 codedHeight (last frames {| frame_id := 0; codedWidth := 0;
                                             codedHeight := 0 |}))
    end.
Proof.
  induction frames as [| f frames IH]; intros s R; [now repeat split |].
  cbn [sink_run fst snd map].
  destruct (on_bitmap_frame has s f) as (B1 & B2 & B3 & B4 & B5 & B6 & B7 & B8).
  destruct (IH _ B4) as (I1 & I2 & I3 & I4 & I5 & I6 & I7 & I8).
  unfold frames_drawn, frames_closed, shows, loadings in *.
  rewrite !flat_map_app, B1, B2, B5, B6, I1, I2, I3, I4, I5, I6, I7, I8,
    B7, B8, R, B3.
  repeat split. now destruct frames.
Qed.

(** X20. The frames of a session, from the first one on: every frame is
    drawn once and closed once, in the order of arrival; the loading
    layer is removed and the canvas shown at the first frame and only
    then; afterwards the component is ready, the canvas has the size of
    the last frame, and the render shows the canvas at full opacity with
    neither loading layer nor poster. *)
Theorem frames_drawn_and_released
        (has_onCanvasRef : bool) (poster : option string)
        (f : VideoFrame) (frames : list VideoFrame) :
  frames_drawn (snd (sink_run has_onCanvasRef sink_start (f :: frames)))
  = map frame_id (f :: frames) /\
  frames_closed (snd (sink_run has_onCanvasRef sink_start (f :: frames)))
  = map frame_id (f :: frames) /\
  shows (snd (sink_run has_onCanvasRef sink_start (f :: frames))) = [true] /\
  loadings (snd (sink_run has_onCanvasRef sink_start (f :: frames))) = [false] /\
  ready (fst (sink_run has_onCanvasRef sink_start (f :: frames))) = true /\
  canvas_size (fst (sink_run has_onCanvasRef sink_start (f :: frames)))
  = Some (codedWidth (last frames f), codedHeight (last frames f)) /\
  render poster (fst (sink_run has_onCanvasRef sink_start (f :: frames)))
  = {| loading_layer := false; poster_image := false; canvas_opacity := 1 |} /\
  render poster sink_start
  = {| loading_layer := true; poster_image := truthy poster;
       canvas_opacity := 0 |}.
Proof.
  cbn [sink_run fst snd map].
  destruct (on_bitmap_frame has_onCanvasRef sink_start f)
    as (B1 & B2 & B3 & B4 & B5 & B6 & B7 & B8).
  destruct (sink_run_ready has_onCanvasRef frames _ B4)
    as (I1 & I2 & I3 & I4 & I5 & I6 & I7 & I8).
  unfold frames_drawn, frames_closed, shows, loadings, render in *.
  rewrite !flat_map_app, B1, B2, B5, B6, I1, I2, I3, I4, I5, I6, I7, I8, B7, B8, B3.
  cbn. repeat split.
  destruct frames as [| g gs]; [reflexivity |].
  rewrite (last_cons_default gs g _ f). reflexivity.
Qed.

Lemma init_refusal_witness :
  count_onPlay
    (effects_of
       (snd (fst (init_before_sleep
                    {| cameraId := Some "cam1"%string; channel := "0";
                       isSupported := Some true; isFirefox := true;
                       location_protocol := "https:";
                       location_host := "miloco.local";
                       VITE_API_BASE := None |}
                    default_closure
                    (session_start sample_configure default_closure
                                   "ws://host/api/miot/ws/video_stream" None)))))
  = 1%nat.
Proof.
  destruct (init_refusal nat
              {| cameraId := Some "cam1"%string; channel := "0";
                 isSupported := Some true; isFirefox := true;
                 location_protocol := "https:";
                 location_host := "miloco.local";
                 VITE_API_BASE := None |}
              default_closure
              (session_start sample_configure default_closure
                             "ws://host/api/miot/ws/video_stream" None))
    as (_ & _ & _ & H).
  apply H; [reflexivity | discriminate | reflexivity].
Defined.

(* ================================================================== *)
(** ** Properties of the request helper                                *)
(* ================================================================== *)

(** X21. The response interceptor hands a body on only when the status
    is exactly 200 and the body is truthy, and then shows nothing. Any
    other response whose body is neither [null] nor [undefined] becomes
    [null], with the [message] of the body shown when it is truthy; a
    body that is [null] or [undefined] makes the interceptor throw a
    TypeError, whatever the status. It never redirects. *)
Theorem on_response_outcome (r : Api.response) :
  (Api.status r = 200 -> Api.truthy (Api.data r) = true ->
   Api.on_response r
   = {| Api.result := Api.Returns (Api.data r);
        Api.toasts := []; Api.redirects := [] |}) /\
  (Api.data r = Api.JNull \/ Api.data r = Api.JUndefined ->
   Api.result (Api.on_response r) = Api.Throws "TypeError") /\
  (Api.status r <> 200 \/ Api.truthy (Api.data r) = false ->
   Api.data r <> Api.JNull -> Api.data r <> Api.JUndefined ->
   Api.result (Api.on_response r) = Api.Returns Api.JNull /\
   Api.toasts (Api.on_response r)
   = (if Api.truthy (Api.message_opt (Api.data r))
      then [Api.message_opt (Api.data r)] else [])) /\
  Api.redirects (Api.on_response r) = [].
Proof.
  unfold Api.on_response, Api.message_opt. repeat split.
  - intros Hs Ht. now rewrite Hs, Ht.
  - intros [E | E]; rewrite E; cbn; now rewrite andb_false_r.
  - destruct H as [Hs | Ht].
    + apply Z.eqb_neq in Hs. rewrite Hs. cbn [andb].
      destruct (Api.data r); try congruence; reflexivity.
    + rewrite Ht, andb_false_r.
      destruct (Api.data r); try congruence; reflexivity.
  - destruct H as [Hs | Ht].
    + apply Z.eqb_neq in Hs. rewrite Hs. cbn [andb].
      destruct (Api.data r); try congruence; reflexivity.
    + rewrite Ht, andb_false_r.
      destruct (Api.data r); try congruence; reflexivity.
  - destruct (_ && _); [reflexivity |].
    now destruct (Api.message_of (Api.data r)).
Qed.

Lemma on_response_outcome_witness :
  Api.result (Api.on_response {| Api.status := 201;
                                 Api.data := Api.JObj [("id"%string, Api.JNum 7)] |})
  = Api.Returns Api.JNull /\
  Api.result (Api.on_response {| Api.status := 200; Api.data := Api.JNull |})
  = Api.Throws "TypeError".
Proof.
  split.
  - destruct (on_response_outcome
                {| Api.status := 201;
                   Api.data := Api.JObj [("id"%string, Api.JNum 7)] |})
      as (_ & _ & H & _).
    apply H; [left | |]; discriminate.
  - destruct (on_response_outcome
                {| Api.status := 200; Api.data := Api.JNull |})
      as (_ & H & _).
    apply H. now left.
Defined.

(** X22. The error interceptor never throws and always returns [null],
    so a failed request resolves to [null]. It redirects at most once: to
    [/login] on a 401 unless the page is already [/login], to [/500] on a
    500, and nowhere on any other status. An error without a response
    shows nothing and redirects nowhere. *)
Theorem on_error_outcome (err : option Api.response) (loc : Api.location) :
  Api.result (Api.on_error err loc) = Api.Returns Api.JNull /\
  (List.length (Api.redirects (Api.on_error err loc)) <= 1)%nat /\
  (forall r, err = Some r -> Api.status r = 401 ->
             Api.redirects (Api.on_error err loc)
             = if String.eqb (Api.pathname loc) "/login" then []
               else [String.append (or_else (Api.origin loc) EmptyString)
                                   "/login"]) /\
  (forall r, err = Some r -> Api.status r = 500 ->
             Api.redirects (Api.on_error err loc)
             = [String.append (or_else (Api.origin loc) EmptyString) "/500"]) /\
  (forall r, err = Some r -> Api.status r <> 401 -> Api.status r <> 500 ->
             Api.redirects (Api.on_error err loc) = []) /\
  (err = None ->
   Api.toasts (Api.on_error err loc) = [] /\
   Api.redirects (Api.on_error err loc) = []).
Proof.
  unfold Api.on_error. cbn [Api.result Api.redirects Api.toasts].
  split; [reflexivity |]. split; [| split; [| split; [| split]]].
  - destruct err as [r |]; [| cbn; lia].
    destruct (Z.eqb_spec (Api.status r) 401) as [E | E].
    + rewrite E. cbn [Z.eqb Pos.eqb app].
      destruct (negb _); cbn; lia.
    + destruct (Api.status r =? 500); cbn; lia.
  - intros r -> E. rewrite E. cbn [Z.eqb Pos.eqb].
    destruct (String.eqb (Api.pathname loc) "/login"); reflexivity.
  - intros r -> E. rewrite E. reflexivity.
  - intros r -> E1 E2. apply Z.eqb_neq in E1, E2. now rewrite E1, E2.
  - intros ->. now split.
Qed.

Lemma on_error_outcome_witness :
  Api.redirects
    (Api.on_error (Some {| Api.status := 401; Api.data := Api.JUndefined |})
                  {| Api.origin := Some "https://miloco.local"%string;
                     Api.pathname := "/login" |}) = [] /\
  Api.redirects
    (Api.on_error (Some {| Api.status := 500; Api.data := Api.JUndefined |})
                  {| Api.origin := Some "https://miloco.local"%string;
                     Api.pathname := "/home" |})
  = ["https://miloco.local/500"%string].
Proof.
  split.
  - destruct (on_error_outcome
                (Some {| Api.status := 401; Api.data := Api.JUndefined |})
                {| Api.origin := Some "https://miloco.local"%string;
                   Api.pathname := "/login" |}) as (_ & _ & H & _).
    apply (H _ eq_refl eq_refl).
  - destruct (on_error_outcome
                (Some {| Api.status := 500; Api.data := Api.JUndefined |})
                {| Api.origin := Some "https://miloco.local"%string;
                   Api.pathname := "/home" |}) as (_ & _ & _ & H & _).
    apply (H _ eq_refl eq_refl).
Defined.

Section CallProperties.

Variable Payload : Type.
Variable empty_object : Payload.

(** X23. Where [callapi] puts the payload: in the query parameters for
    the method ["GET"] (the default), in the body for ["POST"] and
    ["PUT"], and nowhere for any other method string, a differently
    cased one included; never in both places. The four helpers follow:
    [getApi] sends it as parameters, [postApi] and [putApi] as body,
    [deleteApi] sends none. *)
Theorem callapi_payload
        (method : option string) (url : string) (data : Payload)
        (timeout : option Z) :
  let m := match method with Some m => m | None => "GET"%string end in
  (m = "GET"%string ->
   Api.cfg_params Payload (Api.callapi Payload empty_object method url
                                       (Some data) timeout) = data /\
   Api.cfg_data Payload (Api.callapi Payload empty_object method url
                                     (Some data) timeout) = empty_object) /\
  (m = "POST"%string \/ m = "PUT"%string ->
   Api.cfg_params Payload (Api.callapi Payload empty_object method url
                                       (Some data) timeout) = empty_object /\
   Api.cfg_data Payload (Api.callapi Payload empty_object method url
                                     (Some data) timeout) = data) /\
  (m <> "GET"%string -> m <> "POST"%string -> m <> "PUT"%string ->
   Api.cfg_params Payload (Api.callapi Payload empty_object method url
                                       (Some data) timeout) = empty_object /\
   Api.cfg_data Payload (Api.callapi Payload empty_object method url
                                     (Some data) timeout) = empty_object) /\
  (Api.cfg_params Payload (Api.callapi Payload empty_object method url
                                       (Some data) timeout) = empty_object \/
   Api.cfg_data Payload (Api.callapi Payload empty_object method url
                                     (Some data) timeout) = empty_object) /\
  Api.cfg_params Payload (Api.getApi Payload empty_object url (Some data) timeout)
  = data /\
  Api.cfg_data Payload (Api.postApi Payload empty_object url (Some data) timeout)
  = data /\
  Api.cfg_data Payload (Api.putApi Payload empty_object url (Some data) timeout)
  = data /\
  Api.cfg_params Payload (Api.deleteApi Payload empty_object url timeout)
  = empty_object /\
  Api.cfg_data Payload (Api.deleteApi Payload empty_object url timeout)
  = empty_object.
Proof.
  intros m. unfold Api.callapi. fold m. cbn [Api.cfg_params Api.cfg_data].
  split; [| split; [| split; [| split]]].
  - intros ->. now split.
  - intros [-> | ->]; now split.
  - intros H1 H2 H3.
    apply String.eqb_neq in H1, H2, H3. now rewrite H1, H2, H3.
  - destruct (String.eqb_spec m "GET") as [-> | H1]; [now right | now left].
  - now repeat split.
Qed.

End CallProperties.

Lemma callapi_payload_witness :
  Api.cfg_params nat (Api.callapi nat 0%nat (Some "get"%string) "/api/x"
                                  (Some 5%nat) None) = 0%nat /\
  Api.cfg_data nat (Api.callapi nat 0%nat (Some "get"%string) "/api/x"
                                (Some 5%nat) None) = 0%nat.
Proof.
  destruct (callapi_payload nat 0%nat (Some "get"%string) "/api/x" 5%nat None)
    as (_ & _ & H & _).
  apply H; discriminate.
Defined.

(* ================================================================== *)
(** ** Further properties of the cameras being played                  *)
(* ================================================================== *)

Lemma includes_false_iff l x :
  Instant.includes l x = false <-> ~ In x l.
Proof.
  unfold Instant.includes. split.
  - intros H Hin.
    assert (E : existsb (String.eqb x) l = true).
    { apply existsb_exists. exists x. split; [assumption |].
      apply String.eqb_refl. }
    congruence.
  - intros H. destruct (existsb (String.eqb x) l) eqn:E; [| reflexivity].
    apply existsb_exists in E as (y & Hy & Ey).
    apply String.eqb_eq in Ey. subst. contradiction.
Qed.

Lemma filter_out_absent x : forall l,
  ~ In x l -> filter (fun id => negb (String.eqb id x)) l = l.
Proof.
  induction l as [| y l IH]; intros H; [reflexivity |].
  cbn [filter]. destruct (String.eqb_spec y x) as [-> | Hne].
  - exfalso. apply H. now left.
  - cbn [negb]. f_equal. apply IH. intros Hin. apply H. now right.
Qed.

(** X24. A click never puts a camera twice in the list: when the list of
    playing cameras has no duplicate, it has none after [playStream],
    whatever is clicked. *)
Theorem activate_keeps_NoDup (cur : list string) (item : option Instant.camera) :
  NoDup cur -> NoDup (Instant.activate cur item).
Proof.
  intros H. destruct item as [item |]; [| exact H].
  destruct (Instant.includes cur (Instant.did item)) eqn:E.
  - rewrite activate_toggle_off by assumption. now apply NoDup_filter.
  - rewrite activate_new_appends by assumption.
    apply includes_false_iff in E.
    apply NoDup_rev in H. rewrite <- (rev_involutive (cur ++ _)).
    apply NoDup_rev. rewrite rev_app_distr. cbn.
    constructor; [| assumption]. now rewrite <- in_rev.
Qed.

Lemma activate_keeps_NoDup_witness :
  NoDup (Instant.activate ["cam1"; "cam2"]%string
                          (Some {| Instant.did := "cam3" |})).
Proof.
  apply (activate_keeps_NoDup ["cam1"; "cam2"]%string).
  repeat constructor; simpl; intuition discriminate.
Defined.

(** X25. Two clicks on a camera that was not playing leave the list as
    it was: the first click appends it, the second removes it and keeps
    the others in their order. *)
Theorem activate_twice_restores (cur : list string) (item : Instant.camera) :
  Instant.includes cur (Instant.did item) = false ->
  Instant.activate (Instant.activate cur (Some item)) (Some item) = cur.
Proof.
  intros E. rewrite (activate_new_appends cur item E).
  rewrite activate_toggle_off.
  - rewrite filter_app, filter_out_absent by now apply includes_false_iff.
    cbn. rewrite String.eqb_refl. cbn. apply app_nil_r.
  - unfold Instant.includes. rewrite existsb_app. cbn.
    rewrite String.eqb_refl. now rewrite orb_true_r.
Qed.

Lemma activate_twice_restores_witness :
  Instant.activate
    (Instant.activate ["cam1"; "cam2"]%string (Some {| Instant.did := "cam3" |}))
    (Some {| Instant.did := "cam3" |})
  = ["cam1"; "cam2"]%string.
Proof.
  apply (activate_twice_restores ["cam1"; "cam2"]%string
                                 {| Instant.did := "cam3" |}).
  reflexivity.
Defined.

Lemma clicks_append : forall (cams : list Instant.camera) (cur : list string),
  NoDup (cur ++ map Instant.did cams) ->
  fold_left (fun s c => Instant.activate s (Some c)) cams cur
  = cur ++ map Instant.did cams.
Proof.
  induction cams as [| c cams IH]; intros cur H; [now rewrite app_nil_r |].
  cbn [fold_left map].
  assert (E : Instant.includes cur (Instant.did c) = false).
  { apply includes_false_iff. intros Hin.
    apply NoDup_remove_2 in H. apply H. apply in_or_app. now left. }
  rewrite (activate_new_appends cur c E).
  rewrite IH; rewrite <- app_assoc; [reflexivity | exact H].
Qed.

(** X26. The list of playing cameras is not bounded: clicks on any
    number of distinct cameras, none of them playing, leave all of them
    playing, after those that were, in the order of the clicks. *)
Theorem clicks_on_distinct_cameras
        (cams : list Instant.camera) (cur : list string) :
  NoDup (cur ++ map Instant.did cams) ->
  fold_left (fun s c => Instant.activate s (Some c)) cams cur
  = cur ++ map Instant.did cams /\
  List.length (fold_left (fun s c => Instant.activate s (Some c)) cams cur)
  = (List.length cur + List.length cams)%nat.
Proof.
  intros H. rewrite (clicks_append cams cur H).
  split; [reflexivity |]. now rewrite length_app, length_map.
Qed.

Lemma clicks_on_distinct_cameras_witness :
  List.length
    (fold_left (fun s c => Instant.activate s (Some c))
               [ {| Instant.did := "cam1" |}; {| Instant.did := "cam2" |};
                 {| Instant.did := "cam3" |}; {| Instant.did := "cam4" |};
                 {| Instant.did := "cam5" |}; {| Instant.did := "cam6" |} ]
               []) = 6%nat.
Proof.
  apply (clicks_on_distinct_cameras
           [ {| Instant.did := "cam1" |}; {| Instant.did := "cam2" |};
             {| Instant.did := "cam3" |}; {| Instant.did := "cam4" |};
             {| Instant.did := "cam5" |}; {| Instant.did := "cam6" |} ] []).
  repeat constructor; simpl; intuition discriminate.
Defined.

(* ================================================================== *)
(** ** The further properties at work                                  *)
(* ================================================================== *)

Lemma session_run_invariant_witness :
  closes
    (snd (session_run sample_decode default_closure sample_session
            (map unit_event
                 [([x00; x00; x00; x01; x65; x88; x84; x00; x33; xff], 10);
                  ([x00; x00; x01; x41; x9a], 50)])))
  = false.
Proof.
  destruct (session_run_invariant nat sample_decode default_closure
              [([x00; x00; x00; x01; x65; x88; x84; x00; x33; xff], 10);
               ([x00; x00; x01; x41; x9a], 50)]
              sample_session
              {| dec_internal := 0%nat; _waitForKeyFrame := None |}
              eq_refl) as (_ & H & _).
  exact H.
Defined.

Lemma first_submitted_chunk_is_key_witness :
  decoded
    (snd (session_run sample_decode default_closure sample_session
            (map unit_event
                 [([x00; x00; x00; x01; x41; x9a; x24; x6c; x41; x4f], 10);
                  ([x00; x00; x00; x01; x65; x88; x84; x00; x33; xff], 50);
                  ([x00; x00; x00; x01; x41; x9a; x02; x05; x84; x21], 90)])))
  = [ {| chunk_type := key; chunk_timestamp := 50;
         chunk_data := [x00; x00; x00; x01; x65; x88; x84; x00; x33; xff] |};
      {| chunk_type := delta; chunk_timestamp := 90;
         chunk_data := [x00; x00; x00; x01; x41; x9a; x02; x05; x84; x21] |} ] /\
  chunk_type
    {| chunk_type := key; chunk_timestamp := 50;
       chunk_data := [x00; x00; x00; x01; x65; x88; x84; x00; x33; xff] |}
  = key.
Proof.
  split; [reflexivity |].
  apply (first_submitted_chunk_is_key nat sample_decode default_closure
           sample_session
           {| dec_internal := 0%nat; _waitForKeyFrame := None |}
           [([x00; x00; x00; x01; x41; x9a; x24; x6c; x41; x4f], 10);
            ([x00; x00; x00; x01; x65; x88; x84; x00; x33; xff], 50);
            ([x00; x00; x00; x01; x41; x9a; x02; x05; x84; x21], 90)]
           _
           [ {| chunk_type := delta; chunk_timestamp := 90;
                chunk_data := [x00; x00; x00; x01; x41; x9a; x02; x05; x84; x21] |} ]);
    reflexivity.
Defined.

Lemma session_after_detection_witness :
  detect_calls
    (snd (session_run sample_decode
            {| codec := "avc1.42E01E"; autoCodec := Some "hvc1.1.6.L93.B0"%string;
               error := None; onPlay := true |}
            sample_session
            (map unit_event
                 [([x00; x00; x00; x01; x40; x01; x0c; x01; xff; xff; x01; x60], 10);
                  ([x00; x00; x00; x01; x26; x01; xaf; x08; x40; x21; x00; x5c], 50)])))
  = [].
Proof.
  destruct (session_after_detection nat sample_decode
              {| codec := "avc1.42E01E"; autoCodec := Some "hvc1.1.6.L93.B0"%string;
                 error := None; onPlay := true |}
              "hvc1.1.6.L93.B0" eq_refl ltac:(discriminate)
              [([x00; x00; x00; x01; x40; x01; x0c; x01; xff; xff; x01; x60], 10);
               ([x00; x00; x00; x01; x26; x01; xaf; x08; x40; x21; x00; x5c], 50)]
              sample_session
              {| dec_internal := 0%nat; _waitForKeyFrame := None |}
              eq_refl) as (H & _).
  exact H.
Defined.

Lemma autoCodec_state_last_detected_witness :
  state_autoCodec
    (fst (session_run sample_decode default_closure sample_session
            (map unit_event
                 [([x00; x00; x00; x01; x67; x42; xe0; x1e; xda; x02], 10);
                  ([x00; x00; x00; x01; x40; x01; x0c; x01; xff; xff; x01; x60], 50)])))
  = Some "hvc1.1.6.L93.B0"%string.
Proof.
  apply (autoCodec_state_last_detected nat sample_decode default_closure
           eq_refl
           [([x00; x00; x00; x01; x67; x42; xe0; x1e; xda; x02], 10);
            ([x00; x00; x00; x01; x40; x01; x0c; x01; xff; xff; x01; x60], 50)]
           sample_session
           {| dec_internal := 0%nat; _waitForKeyFrame := None |}
           eq_refl).
Defined.

Lemma init_replaces_handles_witness :
  fst (init_after_sleep sample_configure (fun s => s) sample_env default_closure
         (fst (fst (init_before_sleep sample_env default_closure sample_session))))
  = sample_session.
Proof.
  destruct (init_replaces_handles nat sample_configure (fun s => s)
              sample_env default_closure sample_session eq_refl)
    as (_ & _ & _ & _ & _ & _ & _ & H).
  exact H.
Defined.

Lemma init_close_calls_onPlay_witness :
  calls_onPlay
    (snd (onclose default_closure sample_session
            (close_event (ClosedLocally None None)))) = true.
Proof.
  destruct (init_close_calls_onPlay nat sample_env default_closure
              default_closure sample_session sample_session
              {| ws_url := "wss://miloco.local/api/miot/ws/video_stream?camera_id=cam1&channel=0" |}
              eq_refl eq_refl) as (H & _).
  apply (H (ClosedLocally None None)). now left.
Defined.

Lemma cleanup_during_pause_witness :
  wsRef
    (fst (init_after_sleep sample_configure (fun s => s) sample_env
            default_closure
            (fst (cleanup (fst (fst (init_before_sleep sample_env
                                       default_closure sample_session)))))))
  = Some {| ws_url := "wss://miloco.local/api/miot/ws/video_stream?camera_id=cam1&channel=0" |}.
Proof.
  destruct (cleanup_during_pause nat sample_configure (fun s => s) sample_env
              default_closure sample_session eq_refl) as (_ & H & _).
  exact H.
Defined.

Lemma rerun_during_pause_witness :
  let st := fst (cleanup sample_session) in
  let s1 := fst (fst (init_before_sleep sample_env default_closure st)) in
  let a1 := snd (fst (init_before_sleep sample_env default_closure st)) in
  let s2 := fst (cleanup s1) in
  let a2 := map Eff (snd (cleanup s1)) in
  let s3 := fst (fst (init_before_sleep sample_env default_closure s2)) in
  let a3 := snd (fst (init_before_sleep sample_env default_closure s2)) in
  let s4 := fst (init_after_sleep sample_configure (fun s => s) sample_env
                                  default_closure s3) in
  let a4 := snd (init_after_sleep sample_configure (fun s => s) sample_env
                                  default_closure s3) in
  let a5 := snd (init_after_sleep sample_configure (fun s => s) sample_env
                                  default_closure s4) in
  List.length (opened (a1 ++ a2 ++ a3 ++ a4 ++ a5)) = 2%nat /\
  closes (effects_of (a1 ++ a2 ++ a3 ++ a4 ++ a5)) = false.
Proof.
  destruct (rerun_during_pause nat sample_configure (fun s => s)
              sample_env sample_env default_closure default_closure
              (fst (cleanup sample_session))
              eq_refl eq_refl eq_refl eq_refl) as (H1 & H2 & _).
  split; [now rewrite H1 | exact H2].
Defined.

Lemma transport_error_then_close_witness :
  state_error
    (fst (onclose default_closure (fst (onerror default_closure sample_session))
            (close_event (ClosedLocally None None))))
  = Some "instant.deviceList.deviceConnectClosed"%string.
Proof.
  destruct (transport_error_then_close nat default_closure sample_session
              {| ws_url := "wss://miloco.local/api/miot/ws/video_stream?camera_id=cam1&channel=0" |}
              eq_refl eq_refl eq_refl) as (_ & _ & H).
  destruct (H (ClosedLocally None None)) as (_ & H'); [now left | exact H'].
Defined.
